(** * StackSpot SDK client: token cache and authenticated request dispatch

    A shallow embedding of [StackSpotClient] (constructor, [getAccessToken],
    [refreshToken], [request] and the verb wrappers) together with the
    properties its specification states about it.

    Conventions of the embedding:
    - JavaScript strings are Rocq strings; integer valued numbers (time
      stamps in milliseconds, lifetimes in seconds, HTTP status codes) are
      [Z], exact as long as they stay in the safe integer range of a double;
    - values of type [any] are [JsValue]: the JSON shaped values plus
      [undefined]; a JSON number is kept as the exact decimal it denotes;
    - an [async] method is a computation in a state and exception monad in
      which the state survives a thrown error, as it does in JavaScript;
    - the outside world (the clock behind [Date.now] and the network behind
      [fetch]) is an oracle the computation reads from, and every [fetch]
      that is issued is recorded in the machine state. *)

From Stdlib Require Import ZArith String Ascii List Bool Lia DecimalString.
Import ListNotations.
Local Open Scope string_scope.
Local Open Scope Z_scope.

#[local] Set Warnings "-register-all".

(** ** JavaScript values *)

(** The decimal [mant * 10 ^ exp10], as a JSON text writes a number. *)
Record JsNumber := mkNum { mant : Z; exp10 : Z }.

Definition num_of_Z (z : Z) : JsNumber := mkNum z 0.

(** As a double the decimal is zero when its magnitude is at most half the
    least positive double, 2^-1075, and infinite from 2^1024 - 2^970 on. *)
Definition rounds_to_zero (d : JsNumber) : bool :=
  (mant d =? 0)
  || ((exp10 d <? 0) && (Z.abs (mant d) * 2 ^ 1075 <=? 10 ^ (- exp10 d))).

Definition rounds_to_infinity (d : JsNumber) : bool :=
  if exp10 d <? 0
  then (2 ^ 1024 - 2 ^ 970) * 10 ^ (- exp10 d) <=? Z.abs (mant d)
  else 2 ^ 1024 - 2 ^ 970 <=? Z.abs (mant d) * 10 ^ exp10 d.

Inductive JsValue :=
| JUndefined
| JNull
| JBool (b : bool)
| JNumber (d : JsNumber)
| JString (s : string)
| JArray (items : list JsValue)
| JObject (props : list (string * JsValue)).

(** [ToBoolean]: the falsy values are undefined, null, false, zero and the
    empty string. *)
Definition truthy (v : JsValue) : bool :=
  match v with
  | JUndefined | JNull => false
  | JBool b => b
  | JNumber d => negb (rounds_to_zero d)
  | JString s => negb (s =? "")%string
  | JArray _ | JObject _ => true
  end.

Definition truthy_string (s : string) : bool := negb (s =? "")%string.

(** Truthiness of an optional string ([string | null | undefined]). *)
Definition truthy_opt_string (o : option string) : bool :=
  match o with
  | Some s => truthy_string s
  | None => false
  end.

(** Truthiness of an optional integer ([number | undefined]). *)
Definition truthy_opt_Z (o : option Z) : bool :=
  match o with
  | Some z => negb (z =? 0)
  | None => false
  end.

Definition truthy_opt_bool (o : option bool) : bool :=
  match o with
  | Some b => b
  | None => false
  end.

(** [a || b] on optional strings and on optional integers, with a default
    that is always there. *)
Definition or_string (o : option string) (dflt : string) : string :=
  match o with
  | Some s => if truthy_string s then s else dflt
  | None => dflt
  end.

Definition or_Z (o : option Z) (dflt : Z) : Z :=
  match o with
  | Some z => if negb (z =? 0) then z else dflt
  | None => dflt
  end.

(** [a || b] on values. *)
Definition js_or (a b : JsValue) : JsValue := if truthy a then a else b.

(** *** Objects as ordered property lists *)

Fixpoint all_digits (s : string) : bool :=
  match s with
  | EmptyString => true
  | String c r =>
      andb (andb (48 <=? Z.of_nat (nat_of_ascii c)) (Z.of_nat (nat_of_ascii c) <=? 57))
           (all_digits r)
  end.

Fixpoint digits_value (acc : Z) (s : string) : Z :=
  match s with
  | EmptyString => acc
  | String c r => digits_value (10 * acc + (Z.of_nat (nat_of_ascii c) - 48)) r
  end.

(** A key is an array index when it is the canonical decimal of an integer
    below 2^32 - 1; such keys are enumerated first, in ascending order. *)
Definition array_index (k : string) : option Z :=
  match k with
  | EmptyString => None
  | String c r =>
      if all_digits k
      then if andb (Ascii.eqb c "0") (negb (r =? "")%string) then None
           else if (String.length k <=? 10)%nat
                then let v := digits_value 0 k in
                     if v <? 4294967295 then Some v else None
                else None
      else None
  end.

Section Props.
Context {V : Type}.

Fixpoint get_own (props : list (string * V)) (k : string) : option V :=
  match props with
  | [] => None
  | (k', v) :: rest => if (k' =? k)%string then Some v else get_own rest k
  end.

Definition has_own (props : list (string * V)) (k : string) : bool :=
  match get_own props k with
  | Some _ => true
  | None => false
  end.

Fixpoint replace_own (props : list (string * V)) (k : string) (v : V)
  : list (string * V) :=
  match props with
  | [] => []
  | (k', v') :: rest =>
      if (k' =? k)%string then (k', v) :: rest
      else (k', v') :: replace_own rest k v
  end.

(** Where a new index key goes: before the first key that is not an
    index or is a larger one. *)
Fixpoint insert_index (props : list (string * V)) (i : Z) (k : string) (v : V)
  : list (string * V) :=
  match props with
  | [] => [(k, v)]
  | (k', v') :: rest =>
      match array_index k' with
      | Some j => if j <? i then (k', v') :: insert_index rest i k v
                  else (k, v) :: props
      | None => (k, v) :: props
      end
  end.

(** [obj[k] = v]: an existing property keeps its place, a new one is
    added in property order. *)
Definition set_prop (props : list (string * V)) (k : string) (v : V)
  : list (string * V) :=
  if has_own props k then replace_own props k v
  else match array_index k with
       | Some i => insert_index props i k v
       | None => props ++ [(k, v)]
       end.

(** [{...a, ...b}] *)
Definition spread (a b : list (string * V)) : list (string * V) :=
  fold_left (fun acc kv => set_prop acc (fst kv) (snd kv)) b a.
End Props.

(** [v.k] for one of the keys this program reads ([message], [error]), none
    of which is inherited from a prototype: [None] is the TypeError of a
    property read on null or undefined. *)
Definition get_prop (v : JsValue) (k : string) : option JsValue :=
  match v with
  | JUndefined | JNull => None
  | JObject props =>
      match get_own props k with
      | Some x => Some x
      | None => Some JUndefined
      end
  | _ => Some JUndefined
  end.

(** ** Errors and results *)

(** What a [catch] clause sees of a thrown error. *)
Record JsError := mkError { name : string; message : string }.

Inductive Result (A : Type) :=
| Ok (a : A)
| Err (e : JsError).

Arguments Ok {A} a.
Arguments Err {A} e.

(** [new Error(m)] for a string [m]. *)
Definition new_Error (m : string) : JsError := mkError "Error" m.

Definition TypeError_to_primitive : JsError :=
  mkError "TypeError" "Cannot convert object to primitive value".

(** ** Builtins of the runtime

    [JSON.parse] ([None]: it throws), [JSON.stringify] ([None]: it returns
    undefined), the printing of a number and [AbortSignal.timeout], which
    refuses a delay out of its range by throwing ([Some e]). The client is
    verified for every runtime; [reference_runtime] below is an executable
    one. *)
Class JsRuntime := {
  JSON_parse : string -> option JsValue;
  JSON_stringify : JsValue -> option string;
  Number_toString : JsNumber -> string;
  AbortSignal_timeout : Z -> option JsError
}.

Definition string_of_Z (z : Z) : string := NilZero.string_of_int (Z.to_int z).

Fixpoint join (sep : string) (l : list string) : string :=
  match l with
  | [] => ""
  | [x] => x
  | x :: rest => x ++ sep ++ join sep rest
  end.

Fixpoint sequence {A : Type} (l : list (option A)) : option (list A) :=
  match l with
  | [] => Some []
  | x :: rest =>
      match x, sequence rest with
      | Some a, Some r => Some (a :: r)
      | _, _ => None
      end
  end.

Section ToString.
Context {rt : JsRuntime}.

(** [ToString]: [None] is the TypeError of an object that cannot be
    converted to a primitive, which for a JSON shaped object happens when
    it has an own (and so not callable) [toString] property. Arrays print
    through [join], in which null and undefined are empty. *)
Fixpoint ToString (v : JsValue) : option string :=
  match v with
  | JUndefined => Some "undefined"
  | JNull => Some "null"
  | JBool true => Some "true"
  | JBool false => Some "false"
  | JNumber d => Some (Number_toString d)
  | JString s => Some s
  | JArray items =>
      option_map (join ",")
        (sequence (map (fun x => match x with
                                 | JUndefined | JNull => Some ""
                                 | _ => ToString x
                                 end) items))
  | JObject props =>
      if has_own props "toString" then None else Some "[object Object]"
  end.
End ToString.


(** ** A reference runtime

    An executable [JSON.parse], [JSON.stringify] and number printing, over
    strings read as UTF-8 text. *)
Module Reference.

Definition code (c : ascii) : Z := Z.of_nat (nat_of_ascii c).

Definition chr (z : Z) : ascii := ascii_of_nat (Z.to_nat z).

Definition is_ws (c : ascii) : bool :=
  let n := code c in
  (n =? 32) || (n =? 9) || (n =? 10) || (n =? 13).

Fixpoint skip_ws (s : string) : string :=
  match s with
  | EmptyString => EmptyString
  | String c r => if is_ws c then skip_ws r else s
  end.

Definition is_digit (c : ascii) : bool := (48 <=? code c) && (code c <=? 57).

Definition hex_of (c : ascii) : option Z :=
  let n := code c in
  if (48 <=? n) && (n <=? 57) then Some (n - 48)
  else if (65 <=? n) && (n <=? 70) then Some (n - 55)
  else if (97 <=? n) && (n <=? 102) then Some (n - 87)
  else None.

Definition hex4 (a b c d : ascii) : option Z :=
  match hex_of a, hex_of b, hex_of c, hex_of d with
  | Some x, Some y, Some z, Some w => Some (((x * 16 + y) * 16 + z) * 16 + w)
  | _, _, _, _ => None
  end.

(** The UTF-8 bytes of a code point (a lone surrogate is written the same
    way, on three bytes). *)
Definition utf8 (cp : Z) : string :=
  if cp <? 128 then String (chr cp) ""
  else if cp <? 2048 then
    String (chr (192 + cp / 64)) (String (chr (128 + cp mod 64)) "")
  else if cp <? 65536 then
    String (chr (224 + cp / 4096))
      (String (chr (128 + (cp / 64) mod 64)) (String (chr (128 + cp mod 64)) ""))
  else
    String (chr (240 + cp / 262144))
      (String (chr (128 + (cp / 4096) mod 64))
         (String (chr (128 + (cp / 64) mod 64)) (String (chr (128 + cp mod 64)) ""))).

Definition is_high_surrogate (u : Z) : bool := (55296 <=? u) && (u <=? 56319).
Definition is_low_surrogate (u : Z) : bool := (56320 <=? u) && (u <=? 57343).

Definition prepend (x : string) (res : option (string * string))
  : option (string * string) :=
  match res with
  | Some (str, rest) => Some (x ++ str, rest)
  | None => None
  end.

(** The characters of a string literal, after its opening quote, up to and
    including the closing one. *)
Fixpoint parse_chars (s : string) : option (string * string) :=
  match s with
  | EmptyString => None
  | String c r =>
      if (code c =? 34) then Some ("", r)
      else if (code c =? 92) then
        match r with
        | String e r1 =>
            let n := code e in
            if n =? 34 then prepend (String (chr 34) "") (parse_chars r1)
            else if n =? 92 then prepend (String (chr 92) "") (parse_chars r1)
            else if n =? 47 then prepend "/" (parse_chars r1)
            else if n =? 98 then prepend (String (chr 8) "") (parse_chars r1)
            else if n =? 102 then prepend (String (chr 12) "") (parse_chars r1)
            else if n =? 110 then prepend (String (chr 10) "") (parse_chars r1)
            else if n =? 114 then prepend (String (chr 13) "") (parse_chars r1)
            else if n =? 116 then prepend (String (chr 9) "") (parse_chars r1)
            else if n =? 117 then
              match r1 with
              | String a (String b (String c' (String d r2))) =>
                  match hex4 a b c' d with
                  | Some u =>
                      match r2 with
                      | String b1 (String b2 (String a' (String b' (String c'' (String d' r3))))) =>
                          match hex4 a' b' c'' d' with
                          | Some l =>
                              if (code b1 =? 92) && (code b2 =? 117)
                                 && is_high_surrogate u && is_low_surrogate l
                              then prepend
                                     (utf8 (65536 + (u - 55296) * 1024 + (l - 56320)))
                                     (parse_chars r3)
                              else prepend (utf8 u) (parse_chars r2)
                          | None => prepend (utf8 u) (parse_chars r2)
                          end
                      | _ => prepend (utf8 u) (parse_chars r2)
                      end
                  | None => None
                  end
              | _ => None
              end
            else None
        | EmptyString => None
        end
      else if code c <? 32 then None
      else prepend (String c "") (parse_chars r)
  end.

Fixpoint take_digits (s : string) : string * string :=
  match s with
  | EmptyString => ("", "")
  | String c r =>
      if is_digit c then let (d, rest) := take_digits r in (String c d, rest)
      else ("", s)
  end.

(** The integer part of a number: a single 0, or digits that do not start
    with 0. *)
Definition parse_int (s : string) : option (string * string) :=
  match s with
  | String c r =>
      if code c =? 48 then Some ("0", r)
      else if is_digit c then Some (take_digits s)
      else None
  | EmptyString => None
  end.

Definition parse_frac (s : string) : option (string * string) :=
  match s with
  | String c r =>
      if code c =? 46 then
        match take_digits r with
        | (EmptyString, _) => None
        | (d, rest) => Some (d, rest)
        end
      else Some ("", s)
  | EmptyString => Some ("", s)
  end.

Definition parse_exp (s : string) : option (Z * string) :=
  match s with
  | String c r =>
      if (code c =? 101) || (code c =? 69) then
        let (neg, r1) :=
          match r with
          | String sg r' =>
              if code sg =? 45 then (true, r')
              else if code sg =? 43 then (false, r')
              else (false, r)
          | EmptyString => (false, r)
          end in
        match take_digits r1 with
        | (EmptyString, _) => None
        | (d, rest) =>
            Some (if neg then - digits_value 0 d else digits_value 0 d, rest)
        end
      else Some (0, s)
  | EmptyString => Some (0, s)
  end.

Definition parse_number (s : string) : option (JsNumber * string) :=
  let (neg, s1) :=
    match s with
    | String c r => if code c =? 45 then (true, r) else (false, s)
    | EmptyString => (false, s)
    end in
  match parse_int s1 with
  | Some (i, s2) =>
      match parse_frac s2 with
      | Some (f, s3) =>
          match parse_exp s3 with
          | Some (e, s4) =>
              let m := digits_value 0 (i ++ f) in
              Some (mkNum (if neg then - m else m) (e - Z.of_nat (String.length f)), s4)
          | None => None
          end
      | None => None
      end
  | None => None
  end.

Definition parse_literal (s : string) : option (JsValue * string) :=
  match s with
  | String "t" (String "r" (String "u" (String "e" r))) => Some (JBool true, r)
  | String "f" (String "a" (String "l" (String "s" (String "e" r)))) =>
      Some (JBool false, r)
  | String "n" (String "u" (String "l" (String "l" r))) => Some (JNull, r)
  | _ => None
  end.

Fixpoint parse_value (fuel : nat) (s : string) : option (JsValue * string) :=
  match fuel with
  | O => None
  | S f =>
      match s with
      | EmptyString => None
      | String c r =>
          if code c =? 123 then
            match skip_ws r with
            | String c1 r1 =>
                if code c1 =? 125 then Some (JObject [], r1)
                else parse_members f (skip_ws r) []
            | EmptyString => None
            end
          else if code c =? 91 then
            match skip_ws r with
            | String c1 r1 =>
                if code c1 =? 93 then Some (JArray [], r1)
                else parse_elements f (skip_ws r) []
            | EmptyString => None
            end
          else if code c =? 34 then
            match parse_chars r with
            | Some (str, rest) => Some (JString str, rest)
            | None => None
            end
          else if (code c =? 45) || is_digit c then
            match parse_number s with
            | Some (d, rest) => Some (JNumber d, rest)
            | None => None
            end
          else parse_literal s
      end
  end
with parse_elements (fuel : nat) (s : string) (acc : list JsValue)
  : option (JsValue * string) :=
  match fuel with
  | O => None
  | S f =>
      match parse_value f s with
      | Some (v, r) =>
          match skip_ws r with
          | String c r1 =>
              if code c =? 44 then parse_elements f (skip_ws r1) (acc ++ [v])
              else if code c =? 93 then Some (JArray (acc ++ [v]), r1)
              else None
          | EmptyString => None
          end
      | None => None
      end
  end
with parse_members (fuel : nat) (s : string) (acc : list (string * JsValue))
  : option (JsValue * string) :=
  match fuel with
  | O => None
  | S f =>
      match s with
      | String q r =>
          if code q =? 34 then
            match parse_chars r with
            | Some (k, r1) =>
                match skip_ws r1 with
                | String c r2 =>
                    if code c =? 58 then
                      match parse_value f (skip_ws r2) with
                      | Some (v, r3) =>
                          match skip_ws r3 with
                          | String c' r4 =>
                              if code c' =? 44
                              then parse_members f (skip_ws r4) (set_prop acc k v)
                              else if code c' =? 125
                                   then Some (JObject (set_prop acc k v), r4)
                                   else None
                          | EmptyString => None
                          end
                      | None => None
                      end
                    else None
                | EmptyString => None
                end
            | None => None
            end
          else None
      | EmptyString => None
      end
  end.

(** [JSON.parse]: one value, with white space around it and nothing else. *)
Definition parse (s : string) : option JsValue :=
  match parse_value (2 * String.length s + 2) (skip_ws s) with
  | Some (v, rest) =>
      match skip_ws rest with
      | EmptyString => Some v
      | _ => None
      end
  | None => None
  end.

(** *** Printing *)

Fixpoint strip_trailing_zeros (s : string) : string * Z :=
  match s with
  | EmptyString => ("", 0)
  | String c r =>
      let (r', n) := strip_trailing_zeros r in
      if andb (r' =? "")%string (code c =? 48) then ("", n + 1)
      else (String c r', n)
  end.

Definition zeros (n : Z) : string :=
  string_of_list_ascii (repeat "0"%char (Z.to_nat n)).

(** [Number::toString] on the decimal [s * 10 ^ (n - k)] whose [k] digits
    [s] neither start nor end with a zero. The digits are those of the
    decimal itself, which are those of the double up to 15 digits. *)
Definition number_to_string (d : JsNumber) : string :=
  if rounds_to_zero d then "0"
  else if rounds_to_infinity d then (if mant d <? 0 then "-Infinity" else "Infinity")
  else
    let (s, z) := strip_trailing_zeros (string_of_Z (Z.abs (mant d))) in
    let k := Z.of_nat (String.length s) in
    let n := k + (exp10 d + z) in
    let sign := if mant d <? 0 then "-" else "" in
    let esign := if n - 1 <? 0 then "-" else "+" in
    let es := (esign ++ string_of_Z (Z.abs (n - 1)))%string in
    let body :=
      if (k <=? n) && (n <=? 21) then (s ++ zeros (n - k))%string
      else if (0 <? n) && (n <=? 21) then
        (substring 0 (Z.to_nat n) s ++ "."
         ++ substring (Z.to_nat n) (Z.to_nat (k - n)) s)%string
      else if (-6 <? n) && (n <=? 0) then ("0." ++ zeros (- n) ++ s)%string
      else
        match s with
        | String c r =>
            if k =? 1 then (String c "" ++ "e" ++ es)%string
            else (String c "" ++ "." ++ r ++ "e" ++ es)%string
        | EmptyString => ""
        end in
    (sign ++ body)%string.

Definition hex_digit (n : Z) : ascii :=
  if n <? 10 then chr (48 + n) else chr (87 + n).

Definition escape (c : ascii) : string :=
  let n := code c in
  let bs := chr 92 in
  if n =? 34 then String bs (String (chr 34) "")
  else if n =? 92 then String bs (String bs "")
  else if n =? 8 then String bs "b"
  else if n =? 12 then String bs "f"
  else if n =? 10 then String bs "n"
  else if n =? 13 then String bs "r"
  else if n =? 9 then String bs "t"
  else if n <? 32 then
    String bs (String "u" (String "0" (String "0"
      (String (hex_digit (n / 16)) (String (hex_digit (n mod 16)) "")))))
  else String c "".

Fixpoint escape_all (s : string) : string :=
  match s with
  | EmptyString => ""
  | String c r => (escape c ++ escape_all r)%string
  end.

Definition quote (s : string) : string :=
  (String (chr 34) "" ++ escape_all s ++ String (chr 34) "")%string.

(** [JSON.stringify]: undefined has no text; inside an array it is written
    null, and a property that holds it is left out. *)
Fixpoint stringify (v : JsValue) : option string :=
  match v with
  | JUndefined => None
  | JNull => Some "null"
  | JBool true => Some "true"
  | JBool false => Some "false"
  | JNumber d => Some (if rounds_to_infinity d then "null" else number_to_string d)
  | JString s => Some (quote s)
  | JArray items =>
      Some ("[" ++ join ","
                    (map (fun x => match stringify x with
                                   | Some t => t
                                   | None => "null"
                                   end) items)
            ++ "]")%string
  | JObject props =>
      Some ("{" ++ join ","
                    (flat_map (fun kv => match kv with
                                         | (k, x) =>
                                             match stringify x with
                                             | Some t => [(quote k ++ ":" ++ t)%string]
                                             | None => []
                                             end
                                         end) props)
            ++ "}")%string
  end.

(** *** Timers *)

(** Digits in groups of three from the right, as the runtime prints a large
    integer in an error message; [rev_digits] is least significant first. *)
Fixpoint group_digits (fuel : nat) (rev_digits : list ascii) : list ascii :=
  match fuel with
  | O => rev_digits
  | S f =>
      match rev_digits with
      | a :: b :: c :: (_ :: _) as rest => a :: b :: c :: "_"%char :: group_digits f rest
      | _ => rev_digits
      end
  end.

Definition add_separators (z : Z) : string :=
  let digits := list_ascii_of_string (string_of_Z (Z.abs z)) in
  let sign := if z <? 0 then "-" else "" in
  (sign ++ string_of_list_ascii (rev (group_digits (length digits) (rev digits))))%string.

(** [AbortSignal.timeout] accepts an unsigned 32 bit delay. *)
Definition abort_signal_timeout (delay : Z) : option JsError :=
  if (0 <=? delay) && (delay <=? 4294967295) then None
  else
    let received :=
      if 4294967296 <? Z.abs delay then add_separators delay else string_of_Z delay in
    let q := String (chr 34) "" in
    Some (mkError "RangeError"
            ("The value of " ++ q ++ "delay" ++ q
             ++ " is out of range. It must be >= 0 && <= 4294967295. Received "
             ++ received)%string).

End Reference.

#[export] Instance reference_runtime : JsRuntime := {|
  JSON_parse := Reference.parse;
  JSON_stringify := Reference.stringify;
  Number_toString := Reference.number_to_string;
  AbortSignal_timeout := Reference.abort_signal_timeout
|}.

(** ** Data model *)

(** The caller's callback, which the client only stores. *)
Definition ToolExecutor : Type := positive.

Module StackSpotConfig.
(** Modelled from the spec: the declaration of [StackSpotConfig] in
    [./types] is not part of the sources; the fields are those the
    constructor reads. A field the caller left out is [None]. *)
Record t := mk {
  clientId : option string;
  clientSecret : option string;
  realm : option string;
  baseURL : option string;
  inferenceBaseURL : option string;
  timeout : option Z;
  toolExecutor : option ToolExecutor;
  enableFunctionCalling : option bool
}.
End StackSpotConfig.

Module InternalConfig.
Record t := mk {
  clientId : string;
  clientSecret : string;
  realm : string;
  baseURL : string;
  inferenceBaseURL : string;
  timeout : Z;
  toolExecutor : option ToolExecutor;
  enableFunctionCalling : option bool
}.
End InternalConfig.

Module TokenResponse.
(** Modelled from the spec: the declaration of [TokenResponse] in [./types]
    is not part of the sources; the spec gives it as
    [{ access_token: string, expires_in?: number (seconds) }]. *)
Record t := mk {
  access_token : string;
  expires_in : option Z
}.
End TokenResponse.

Module RequestOptions.
Record t := mk {
  body : JsValue;
  headers : option (list (string * string));
  baseURL : option string;
  stream : option bool
}.

(** The default [{}] of the parameter. *)
Definition empty : t := mk JUndefined None None None.
End RequestOptions.

Inductive RequestBody :=
| BodyText (s : string)
| BodyRaw (v : JsValue).

Module FetchRequestInit.
(** [signal] holds the delay given to [AbortSignal.timeout]. *)
Record t := mk {
  method : string;
  headers : list (string * string);
  body : option RequestBody;
  signal : option Z
}.
End FetchRequestInit.

Module Response.
(** A response as the client reads it: [text] and [json] are what awaiting
    [response.text()] and [response.json()] gives, the latter seen through
    the cast to [TokenResponse]. *)
Record t := mk {
  status : Z;
  statusText : string;
  text : Result string;
  json : Result TokenResponse.t
}.

Definition ok (r : t) : bool := (200 <=? status r) && (status r <=? 299).
End Response.

(** The object: the fields of [StackSpotClient]. *)
Record StackSpotClient := mkClient {
  config : InternalConfig.t;
  accessToken : option string;
  tokenExpiresAt : Z
}.

Inductive LogLevel := info | warn | error.

(** One call of [fetch]. *)
Record FetchCall := mkCall { call_url : string; call_init : FetchRequestInit.t }.

(** The machine: the object, the number of clock readings taken, the
    [fetch] calls issued and the entries handed to the logger, oldest
    first. *)
Record Machine := mkMachine {
  this : StackSpotClient;
  ticks : nat;
  calls : list FetchCall;
  logged : list (LogLevel * string)
}.

(** The world: what the n-th reading of [Date.now] returns and how the
    n-th [fetch] settles. *)
Record World := mkWorld {
  clock : nat -> Z;
  network : nat -> FetchCall -> Result Response.t
}.

(** ** The constructor *)

Definition constructor (cfg : StackSpotConfig.t) : Result StackSpotClient :=
  match StackSpotConfig.clientId cfg, StackSpotConfig.clientSecret cfg with
  | Some id, Some secret =>
      let this_config := {|
        InternalConfig.clientId := id;
        InternalConfig.clientSecret := secret;
        InternalConfig.realm :=
          or_string (StackSpotConfig.realm cfg) "stackspot-freemium";
        InternalConfig.baseURL :=
          or_string (StackSpotConfig.baseURL cfg) "https://idm.stackspot.com";
        InternalConfig.inferenceBaseURL :=
          or_string (StackSpotConfig.inferenceBaseURL cfg)
            "https://genai-inference-app.stackspot.com";
        InternalConfig.timeout := or_Z (StackSpotConfig.timeout cfg) 30000;
        InternalConfig.toolExecutor := StackSpotConfig.toolExecutor cfg;
        InternalConfig.enableFunctionCalling :=
          StackSpotConfig.enableFunctionCalling cfg
      |} in
      if negb (truthy_string (InternalConfig.clientId this_config))
         || negb (truthy_string (InternalConfig.clientSecret this_config))
      then Err (new_Error "clientId e clientSecret são obrigatórios")
      else Ok (mkClient this_config None 0)
  | _, _ =>
      (* an undefined credential is falsy *)
      Err (new_Error "clientId e clientSecret são obrigatórios")
  end.

(** ** The monad of the asynchronous methods *)

Definition M (A : Type) : Type := Machine -> Result A * Machine.

Definition ret {A : Type} (a : A) : M A := fun m => (Ok a, m).

Definition bind {A B : Type} (c : M A) (k : A -> M B) : M B :=
  fun m =>
    match c m with
    | (Ok a, m') => k a m'
    | (Err e, m') => (Err e, m')
    end.

Definition throw {A : Type} (e : JsError) : M A := fun m => (Err e, m).

(** [try { c } catch (e) { h e }] *)
Definition try_catch {A : Type} (c : M A) (h : JsError -> M A) : M A :=
  fun m =>
    match c m with
    | (Ok a, m') => (Ok a, m')
    | (Err e, m') => h e m'
    end.

(** [await] of a promise that has settled as [r]. *)
Definition await {A : Type} (r : Result A) : M A := fun m => (r, m).

Declare Scope monad_scope.
Delimit Scope monad_scope with monad.
Notation "x <- c ;; k" := (bind c (fun x => k))
  (at level 61, c at next level, right associativity) : monad_scope.
Notation "c ;; k" := (bind c (fun _ => k))
  (at level 61, right associativity) : monad_scope.
Local Open Scope monad_scope.

Definition get_this : M StackSpotClient := fun m => (Ok (this m), m).

Definition set_accessToken (t : option string) : M unit :=
  fun m =>
    (Ok tt,
     mkMachine (mkClient (config (this m)) t (tokenExpiresAt (this m)))
               (ticks m) (calls m) (logged m)).

Definition set_tokenExpiresAt (z : Z) : M unit :=
  fun m =>
    (Ok tt,
     mkMachine (mkClient (config (this m)) (accessToken (this m)) z)
               (ticks m) (calls m) (logged m)).

(** [sdkLogger.info], [.warn] and [.error]: the entry is queued; a failure
    to write it is swallowed by the logger. The metadata is left out. *)
Definition sdkLogger (level : LogLevel) (msg : string) : M unit :=
  fun m => (Ok tt, mkMachine (this m) (ticks m) (calls m) (logged m ++ [(level, msg)])).

(** [URLSearchParams.toString]: the form-urlencoded text of the pairs. *)
Definition urlencode_char (c : ascii) : string :=
  let n := Reference.code c in
  if ((48 <=? n) && (n <=? 57)) || ((65 <=? n) && (n <=? 90))
     || ((97 <=? n) && (n <=? 122))
     || (n =? 42) || (n =? 45) || (n =? 46) || (n =? 95)
  then String c ""
  else if n =? 32 then "+"
  else
    let hex := fun d => if d <? 10 then Reference.chr (48 + d) else Reference.chr (55 + d) in
    String "%" (String (hex (n / 16)) (String (hex (n mod 16)) "")).

Fixpoint urlencode (s : string) : string :=
  match s with
  | EmptyString => ""
  | String c r => (urlencode_char c ++ urlencode r)%string
  end.

Definition URLSearchParams_toString (params : list (string * string)) : string :=
  join "&" (map (fun kv => (urlencode (fst kv) ++ "=" ++ urlencode (snd kv))%string) params).

(** A template literal prints a null token as the word null. *)
Definition template_token (t : option string) : string :=
  match t with
  | Some s => s
  | None => "null"
  end.

(** What a method of [request] returns: the parsed body or the text of the
    body, or the live response in streaming mode. *)
Inductive Returned :=
| ReturnedValue (v : JsValue)
| ReturnedResponse (r : Response.t).

Section Client.
Context {rt : JsRuntime}.
Variable w : World.

Definition Date_now : M Z :=
  fun m =>
    (Ok (clock w (ticks m)),
     mkMachine (this m) (S (ticks m)) (calls m) (logged m)).

Definition fetch (url : string) (init : FetchRequestInit.t) : M Response.t :=
  fun m =>
    (network w (length (calls m)) (mkCall url init),
     mkMachine (this m) (ticks m) (calls m ++ [mkCall url init]) (logged m)).

(** [new Error(v)] for a value: the message is [ToString v], and undefined
    leaves it empty. *)
Definition new_Error_of (v : JsValue) : M JsError :=
  match v with
  | JUndefined => ret (new_Error "")
  | _ =>
      match ToString v with
      | Some s => ret (new_Error s)
      | None => throw TypeError_to_primitive
      end
  end.

(** The address of the token endpoint and the grant request sent to it. *)
Definition tokenURL_of (cfg : InternalConfig.t) : string :=
  (InternalConfig.baseURL cfg ++ "/" ++ InternalConfig.realm cfg
   ++ "/oidc/oauth/token")%string.

Definition tokenRequest_of (cfg : InternalConfig.t) : FetchRequestInit.t :=
  let formData :=
    [("grant_type", "client_credentials");
     ("client_id", InternalConfig.clientId cfg);
     ("client_secret", InternalConfig.clientSecret cfg)] in
  {| FetchRequestInit.method := "POST";
     FetchRequestInit.headers :=
       [("Content-Type", "application/x-www-form-urlencoded");
        ("User-Agent", "StackSpot-SDK/1.0.0")];
     FetchRequestInit.body := Some (BodyText (URLSearchParams_toString formData));
     FetchRequestInit.signal := None |}.

Definition refreshToken : M unit :=
  self <- get_this ;;
  let tokenURL := tokenURL_of (config self) in
  try_catch
    (sdkLogger info "Tentando obter token de acesso" ;;
     response <- fetch tokenURL (tokenRequest_of (config self)) ;;
     (if negb (Response.ok response)
      then
        errorText <- await (Response.text response) ;;
        sdkLogger error "Falha ao obter token de acesso" ;;
        throw (new_Error
                 ("Erro ao obter token: " ++ string_of_Z (Response.status response)
                  ++ " " ++ Response.statusText response ++ " - " ++ errorText)%string)
      else ret tt) ;;
     data <- await (Response.json response) ;;
     set_accessToken (Some (TokenResponse.access_token data)) ;;
     (* Assume expiração em 1 hora se não for especificado *)
     now <- Date_now ;;
     set_tokenExpiresAt (now + or_Z (TokenResponse.expires_in data) 3600 * 1000) ;;
     sdkLogger info "Token obtido com sucesso")
    (fun e =>
       sdkLogger error "Falha ao autenticar" ;;
       throw (new_Error ("Falha ao autenticar: " ++ message e)%string)).

Definition getAccessToken : M (option string) :=
  (* Verifica se o token ainda é válido (com margem de 5 minutos) *)
  now <- Date_now ;;
  self <- get_this ;;
  if truthy_opt_string (accessToken self)
     && (tokenExpiresAt self >? now + 5 * 60 * 1000)
  then ret (accessToken self)
  else
    (* Renova o token *)
    refreshToken ;;
    self' <- get_this ;;
    ret (accessToken self').

(** The message of the error thrown for a response that is not ok: the
    inner [try] and [catch] of [request]. A parsed [null] makes the
    property read throw, which the [catch] takes like a failed parse. *)
Definition errorMessage_of (response : Response.t) (errorText : string) : JsValue :=
  let errorMessage :=
    ("HTTP " ++ string_of_Z (Response.status response) ++ ": "
     ++ Response.statusText response)%string in
  let caught := JString (or_string (Some errorText) errorMessage) in
  match JSON_parse errorText with
  | Some errorJson =>
      match get_prop errorJson "message" with
      | Some msg =>
          if truthy msg then msg
          else match get_prop errorJson "error" with
               | Some err => js_or err (JString errorMessage)
               | None => caught
               end
      | None => caught
      end
  | None => caught
  end.

(** The default [{}] of the parameter [options]. *)
Definition options_of (options_arg : option RequestOptions.t) : RequestOptions.t :=
  match options_arg with
  | Some o => o
  | None => RequestOptions.empty
  end.

(** The address the request goes to. *)
Definition url_of (cfg : InternalConfig.t) (path : string) (options : RequestOptions.t)
  : string :=
  let baseURL :=
    or_string (RequestOptions.baseURL options) (InternalConfig.inferenceBaseURL cfg) in
  (baseURL ++ path)%string.

Definition headers_of (token : option string) (options : RequestOptions.t)
  : list (string * string) :=
  spread [("Authorization", ("Bearer " ++ template_token token)%string);
          ("Content-Type", "application/json");
          ("User-Agent", "StackSpot-SDK/1.0.0")]
         (match RequestOptions.headers options with
          | Some h => h
          | None => []
          end).

(** [fetchOptions], once the body has been attached or not. *)
Definition fetchOptions_of (cfg : InternalConfig.t) (token : option string)
  (method : string) (options : RequestOptions.t) : FetchRequestInit.t :=
  {| FetchRequestInit.method := method;
     FetchRequestInit.headers := headers_of token options;
     FetchRequestInit.signal := Some (InternalConfig.timeout cfg);
     FetchRequestInit.body :=
       if truthy (RequestOptions.body options)
       then if truthy_opt_bool (RequestOptions.stream options)
            then (* Para streaming, não stringify o body *)
              Some (BodyRaw (RequestOptions.body options))
            else option_map BodyText (JSON_stringify (RequestOptions.body options))
       else None |}.

(** [AbortSignal.timeout(delay)], which throws on a delay it refuses. *)
Definition new_timeout_signal (delay : Z) : M unit :=
  match AbortSignal_timeout delay with
  | Some e => throw e
  | None => ret tt
  end.

Definition request (method path : string) (options_arg : option RequestOptions.t)
  : M Returned :=
  let options := options_of options_arg in
  token <- getAccessToken ;;
  self <- get_this ;;
  let url := url_of (config self) path options in
  sdkLogger info "Realizando requisição para API StackSpot" ;;
  new_timeout_signal (InternalConfig.timeout (config self)) ;;
  let fetchOptions := fetchOptions_of (config self) token method options in
  try_catch
    (response <- fetch url fetchOptions ;;
     if negb (Response.ok response)
     then
       errorText <- await (Response.text response) ;;
       let errorMessage := errorMessage_of response errorText in
       sdkLogger error "Requisição para API StackSpot falhou" ;;
       e <- new_Error_of errorMessage ;;
       throw e
     else if truthy_opt_bool (RequestOptions.stream options)
     then (* Para streaming, retorna o response diretamente *)
       ret (ReturnedResponse response)
     else
       (* Lê a resposta e faz parse do JSON *)
       responseText <- await (Response.text response) ;;
       match JSON_parse responseText with
       | Some parsedResponse => ret (ReturnedValue parsedResponse)
       | None => (* Se não for JSON, retorna como string *)
           ret (ReturnedValue (JString responseText))
       end)
    (fun e =>
       if (name e =? "AbortError")%string
       then throw (new_Error "Request timeout")
       else throw e).

(** [{ ...options, body }] *)
Definition with_body (options : option RequestOptions.t) (body : JsValue)
  : RequestOptions.t :=
  match options with
  | Some o =>
      RequestOptions.mk body (RequestOptions.headers o) (RequestOptions.baseURL o)
                        (RequestOptions.stream o)
  | None => RequestOptions.mk body None None None
  end.

Definition get (path : string) (options : option RequestOptions.t) : M Returned :=
  request "GET" path options.

Definition post (path : string) (body : JsValue) (options : option RequestOptions.t)
  : M Returned :=
  request "POST" path (Some (with_body options body)).

Definition put (path : string) (body : JsValue) (options : option RequestOptions.t)
  : M Returned :=
  request "PUT" path (Some (with_body options body)).

Definition delete (path : string) (options : option RequestOptions.t) : M Returned :=
  request "DELETE" path options.

End Client.

(** * Vocabulary of the specification *)

Local Open Scope list_scope.

Section Vocabulary.
Context {rt : JsRuntime}.

(** The machine after one reading of the clock. *)
Definition tick (m : Machine) : Machine :=
  mkMachine (this m) (S (ticks m)) (calls m) (logged m).

(** The call [refreshToken] issues from machine [m], and how it settles. *)
Definition token_call (m : Machine) : FetchCall :=
  mkCall (tokenURL_of (config (this m))) (tokenRequest_of (config (this m))).

Definition token_reply (w : World) (m : Machine) : Result Response.t :=
  network w (length (calls m)) (token_call m).

(** The token endpoint granted a token: the response is a success and its
    body reads as [data]. *)
Definition granted (w : World) (m : Machine) (data : TokenResponse.t) : Prop :=
  exists response,
    token_reply w m = Ok response /\
    Response.ok response = true /\
    Response.json response = Ok data.

(** The refresh cannot succeed: the call was rejected, the status is not a
    success, or the body of a success could not be read as JSON. *)
Definition refused (w : World) (m : Machine) : Prop :=
  (exists e, token_reply w m = Err e) \/
  (exists response, token_reply w m = Ok response /\ Response.ok response = false) \/
  (exists response e,
      token_reply w m = Ok response /\ Response.ok response = true /\
      Response.json response = Err e).

(** A cached token exists (the empty string counts as none) and expires
    more than five minutes after the reading of the clock that
    [getAccessToken] takes from machine [m]. *)
Definition fresh (w : World) (m : Machine) : Prop :=
  exists t,
    accessToken (this m) = Some t /\ t <> ""%string /\
    tokenExpiresAt (this m) > clock w (ticks m) + 5 * 60 * 1000.

(** The call [request] issues once it holds [token], from machine [m1]. *)
Definition api_call (m1 : Machine) (token : option string) (method path : string)
  (options : option RequestOptions.t) : FetchCall :=
  mkCall (url_of (config (this m1)) path (options_of options))
         (fetchOptions_of (config (this m1)) token method (options_of options)).

(** [request] got its token, armed its timer and issued its call, which
    settled as [reply]. *)
Definition dispatched (w : World) (m : Machine) (method path : string)
  (options : option RequestOptions.t) (reply : Result Response.t) : Prop :=
  exists token m1,
    getAccessToken w m = (Ok token, m1) /\
    AbortSignal_timeout (InternalConfig.timeout (config (this m1))) = None /\
    network w (length (calls m1)) (api_call m1 token method path options) = reply.

(** The error the outer [catch] of [request] throws for a caught [e]. *)
Definition rethrown (e : JsError) : JsError :=
  if (name e =? "AbortError")%string then new_Error "Request timeout" else e.

(** The error [new Error(v)] makes, or the one thrown when making it. *)
Definition error_of_value (v : JsValue) : JsError :=
  match v with
  | JUndefined => new_Error ""
  | _ =>
      match ToString v with
      | Some s => new_Error s
      | None => TypeError_to_primitive
      end
  end.

(** The value of property [k] of [v], undefined when there is none. *)
Definition field (v : JsValue) (k : string) : JsValue :=
  match v with
  | JObject props =>
      match get_own props k with
      | Some x => x
      | None => JUndefined
      end
  | _ => JUndefined
  end.

(** A failure of the transport: the call, or the reading of a body that
    [request] reads, was rejected with [e]. *)
Definition transport_failure (w : World) (m : Machine) (method path : string)
  (options : option RequestOptions.t) (e : JsError) : Prop :=
  dispatched w m method path options (Err e) \/
  exists response,
    dispatched w m method path options (Ok response) /\
    Response.text response = Err e /\
    (Response.ok response = false \/
     truthy_opt_bool (RequestOptions.stream (options_of options)) = false).



(** The runtime refused the configured delay when the timer was made. *)
Definition timer_refused (w : World) (m : Machine) (e : JsError) : Prop :=
  exists token m1,
    getAccessToken w m = (Ok token, m1) /\
    AbortSignal_timeout (InternalConfig.timeout (config (this m1))) = Some e.

(** A credential is missing: left out, or empty. *)
Definition missing (o : option string) : Prop := o = None \/ o = Some ""%string.

(** [result] is the setting [given], or [dflt] when that is left out or
    empty (zero, for a number). *)
Definition string_setting (given : option string) (dflt result : string) : Prop :=
  (given = None \/ given = Some ""%string -> result = dflt) /\
  (forall s, given = Some s -> s <> ""%string -> result = s).

Definition number_setting (given : option Z) (dflt result : Z) : Prop :=
  (given = None \/ given = Some 0 -> result = dflt) /\
  (forall z, given = Some z -> z <> 0 -> result = z).

End Vocabulary.

(** * Scenarios *)

(** A double quote, for the JSON texts below. *)
Definition dq : string := String (Reference.chr 34) "".

Definition demo_config : StackSpotConfig.t :=
  StackSpotConfig.mk (Some "my-client") (Some "my-secret") None None None None None None.

Definition demo_internal : InternalConfig.t :=
  InternalConfig.mk "my-client" "my-secret" "stackspot-freemium"
    "https://idm.stackspot.com" "https://genai-inference-app.stackspot.com"
    30000 None None.

(** The machine of a client that has just been constructed. *)
Definition new_machine : Machine :=
  mkMachine (mkClient demo_internal None 0) 0 [] [].

(** A token endpoint reply granting [token] for [expires_in] seconds. *)
Definition grant (token : string) (expires_in : option Z) : Response.t :=
  Response.mk 200 "OK" (Ok "") (Ok (TokenResponse.mk token expires_in)).

(** A reply of the resource API with a body of text. *)
Definition reply (status : Z) (statusText body : string) : Response.t :=
  Response.mk status statusText (Ok body) (Err (mkError "SyntaxError" "not a token response")).

(** A world whose clock reads 1000 then 1200 and so on, whose first call is
    answered by [first] and every later one by [later]. *)
Definition world_of (first later : Result Response.t) : World :=
  mkWorld (fun n => 1000 + 200 * Z.of_nat n)
          (fun n _ => match n with O => first | S _ => later end).

(** The token endpoint grants a token for one minute, for no time at all,
    for two hours, and without saying for how long. *)
Definition world_short_lived : World :=
  world_of (Ok (grant "short-lived" (Some 60))) (Ok (reply 200 "OK" "{}")).

Definition world_zero_lifetime : World :=
  world_of (Ok (grant "tok" (Some 0))) (Ok (reply 200 "OK" "{}")).

Definition world_two_hours : World :=
  world_of (Ok (grant "tok" (Some 7200))) (Ok (reply 200 "OK" "{}")).

Definition world_no_lifetime : World :=
  world_of (Ok (grant "tok" None)) (Ok (reply 200 "OK" "{}")).

(** A machine whose cache holds a token that expires at [expiry]. *)
Definition machine_with_token (token : string) (expiry : Z) : Machine :=
  mkMachine (mkClient demo_internal (Some token) expiry) 0 [] [].

(** The resource API answers the second call: with a JSON error that has a
    message, with an empty JSON object, with a text that is not JSON, and
    with a status 408 whose body is the very text of the timeout error. *)
Definition bad_request_body : string :=
  ("{" ++ dq ++ "message" ++ dq ++ ": " ++ dq ++ "bad request" ++ dq ++ "}")%string.

Definition world_bad_request : World :=
  world_of (Ok (grant "tok" (Some 3600))) (Ok (reply 400 "Bad Request" bad_request_body)).

Definition world_empty_object : World :=
  world_of (Ok (grant "tok" (Some 3600))) (Ok (reply 400 "Bad Request" "{}")).

Definition world_not_json : World :=
  world_of (Ok (grant "tok" (Some 3600))) (Ok (reply 200 "OK" "not json")).



(** Options that ask for streaming and carry the number zero as a body. *)
Definition options_zero_stream : RequestOptions.t :=
  RequestOptions.mk (JNumber (num_of_Z 0)) None None (Some true).

(** * The logger ([utils/sdkLogger.ts])

    The module keeps the entries in memory ([logEntries]), whether it has
    read the log file ([initialized]) and a chain of promises ([logQueue])
    that runs one task per logged entry, each after the one before it has
    settled. The model keeps the entries of the tasks that have not run yet,
    oldest first, and the text of the log file. A task touches nothing but
    the module's state and the file, and a call of the logger only extends
    the chain, so a task is run here in one step. *)

Module Logger.

Record State := mkState {
  logEntries : list JsValue;
  initialized : bool;
  logQueue : list JsValue;
  file : option string
}.

(** How the file system treats one task: whether [readFile] and [mkdir]
    are rejected, and whether [writeFile] is, leaving the file as given. *)
Record Faults := mkFaults {
  readFile_fails : bool;
  mkdir_fails : bool;
  writeFile_fails : option (option string)
}.

Definition no_fault : Faults := mkFaults false false None.

Definition level_name (level : LogLevel) : string :=
  match level with
  | info => "info"
  | warn => "warn"
  | error => "error"
  end.

(** The entry [enqueue] builds; [timestamp] is the text of
    [new Date().toISOString()] at the call. *)
Definition make_entry (level : LogLevel) (message : string) (meta : JsValue)
  (timestamp : string) : JsValue :=
  JObject (spread [("timestamp", JString timestamp);
                   ("level", JString (level_name level));
                   ("message", JString message)]
                  (if truthy meta then [("meta", meta)] else [])).

Definition enqueue (level : LogLevel) (message : string) (meta : JsValue)
  (timestamp : string) (s : State) : State :=
  let entry := make_entry level message meta timestamp in
  mkState (logEntries s) (initialized s) (logQueue s ++ [entry]) (file s).

Definition sdkLogger_info := enqueue info.
Definition sdkLogger_warn := enqueue warn.
Definition sdkLogger_error := enqueue error.

Section Tasks.
Context {rt : JsRuntime}.

(** [JSON.stringify(v, null, 2)], which has a text for every array. *)
Variable JSON_stringify_indent : JsValue -> string.

(** [fs.readFile]: rejected when the file system says so or when there is
    no file. *)
Definition readFile (f : Faults) (s : State) : option string :=
  if readFile_fails f then None else file s.

Definition ensureInitialized (f : Faults) (s : State) : State :=
  if initialized s then s
  else
    let entries :=
      match readFile f s with
      | Some existing =>
          match JSON_parse existing with
          | Some (JArray parsed) => parsed
          | Some _ => []
          | None => []
          end
      | None => []
      end in
    mkState entries true (logQueue s) (file s).

(** The task chained for [entry], with the [catch] that follows it: a
    rejected [mkdir] or [writeFile] ends the task and is swallowed. *)
Definition task (entry : JsValue) (f : Faults) (s : State) : State :=
  let s1 := ensureInitialized f s in
  let pushed := logEntries s1 ++ [entry] in
  if mkdir_fails f then mkState pushed (initialized s1) (logQueue s1) (file s1)
  else
    match writeFile_fails f with
    | None =>
        mkState pushed (initialized s1) (logQueue s1)
                (Some (JSON_stringify_indent (JArray pushed)))
    | Some remains => mkState pushed (initialized s1) (logQueue s1) remains
    end.

(** What happens to the module: the logger is called, or the oldest task of
    the chain runs. *)
Inductive Event :=
| Logged (level : LogLevel) (message : string) (meta : JsValue) (timestamp : string)
| Settled (f : Faults).

Definition step (s : State) (e : Event) : State :=
  match e with
  | Logged level message meta timestamp => enqueue level message meta timestamp s
  | Settled f =>
      match logQueue s with
      | [] => s
      | entry :: rest =>
          task entry f (mkState (logEntries s) (initialized s) rest (file s))
      end
  end.

Definition run (events : list Event) (s : State) : State := fold_left step events s.

End Tasks.

(** The module as it is loaded, beside a log file that holds [file0]. *)
Definition initial (file0 : option string) : State := mkState [] false [] file0.

(** The entries logged by [events], in the order of the calls. *)
Definition entries_of (events : list Event) : list JsValue :=
  flat_map (fun e => match e with
                     | Logged level message meta timestamp =>
                         [make_entry level message meta timestamp]
                     | Settled _ => []
                     end) events.

(** The entries a log file holds: the items of the array its text parses
    to, none when there is no file or it is no such text. *)
Definition items_of_file {rt : JsRuntime} (file0 : option string) : list JsValue :=
  match file0 with
  | Some text =>
      match JSON_parse text with
      | Some (JArray items) => items
      | _ => []
      end
  | None => []
  end.

End Logger.

(** [JSON.stringify(v, null, 2)] on the reference runtime: [indent] is the
    indentation the value stands at. *)
Definition newline : string := String (Reference.chr 10) "".

Fixpoint stringify_indent (indent : string) (v : JsValue) : option string :=
  match v with
  | JArray items =>
      match items with
      | [] => Some "[]"%string
      | _ =>
          Some ("[" ++ newline ++ indent ++ "  "
                ++ join ("," ++ newline ++ indent ++ "  ")
                     (map (fun x => match stringify_indent (indent ++ "  ") x with
                                    | Some t => t
                                    | None => "null"
                                    end) items)
                ++ newline ++ indent ++ "]")%string
      end
  | JObject props =>
      match flat_map (fun kv => match kv with
                                | (k, x) =>
                                    match stringify_indent (indent ++ "  ") x with
                                    | Some t => [(Reference.quote k ++ ": " ++ t)%string]
                                    | None => []
                                    end
                                end) props with
      | [] => Some "{}"%string
      | members =>
          Some ("{" ++ newline ++ indent ++ "  "
                ++ join ("," ++ newline ++ indent ++ "  ") members
                ++ newline ++ indent ++ "}")%string
      end
  | _ => Reference.stringify v
  end.

Definition pretty (v : JsValue) : string :=
  match stringify_indent "" v with
  | Some t => t
  | None => "undefined"
  end.

(** * More scenarios *)

(** A token endpoint that answers 401 with a body, and a network that is
    down. *)
Definition world_unauthorized : World :=
  world_of (Ok (reply 401 "Unauthorized" "invalid_client")) (Ok (reply 200 "OK" "{}")).

Definition world_offline : World :=
  world_of (Err (mkError "FetchError" "getaddrinfo ENOTFOUND idm.stackspot.com"))
           (Err (mkError "FetchError" "getaddrinfo ENOTFOUND idm.stackspot.com")).

(** A success whose body cannot be read, for a streaming request. *)
Definition unreadable : Response.t :=
  Response.mk 200 "OK" (Err (mkError "AbortError" "The operation was aborted."))
              (Err (mkError "AbortError" "The operation was aborted.")).

Definition world_unreadable : World :=
  world_of (Ok (grant "tok" (Some 3600))) (Ok unreadable).

Definition options_stream : RequestOptions.t :=
  RequestOptions.mk (JObject [("prompt", JString "hi")]) None None (Some true).

(** Options that replace the content type, add a header and name another
    base address. *)
Definition options_custom : RequestOptions.t :=
  RequestOptions.mk JUndefined
    (Some [("Content-Type", "text/plain"); ("X-Trace", "abc")])
    (Some "https://example.test") None.

(** A client whose configured timeout is negative. *)
Definition machine_negative_timeout : Machine :=
  mkMachine
    (mkClient (InternalConfig.mk "my-client" "my-secret" "stackspot-freemium"
                 "https://idm.stackspot.com" "https://genai-inference-app.stackspot.com"
                 (-1) None None)
              None 0)
    0 [] [].

(** The characters the form encoding lets through, and its escape sign. *)
Definition form_safe (c : ascii) : bool :=
  let n := Reference.code c in
  ((48 <=? n) && (n <=? 57)) || ((65 <=? n) && (n <=? 90))
  || ((97 <=? n) && (n <=? 122))
  || (n =? 42) || (n =? 45) || (n =? 46) || (n =? 95) || (n =? 43) || (n =? 37).

(** Two entries logged and then run, the first on a file system that
    rejects the write. *)
Definition two_entries : list Logger.Event :=
  [Logger.Logged info "first" (JObject [("url", JString "/a")]) "2024-01-01T00:00:00.000Z";
   Logger.Logged error "second" JUndefined "2024-01-01T00:00:01.000Z";
   Logger.Settled (Logger.mkFaults false false (Some None))].

(** * Properties *)

(** ** The token manager *)

Ltac run_refresh :=
  cbv [refreshToken bind try_catch get_this sdkLogger fetch await throw ret
       set_accessToken set_tokenExpiresAt Date_now];
  cbn [this ticks calls logged config accessToken tokenExpiresAt fst snd].

Ltac run_request Hget Hsignal Hreply :=
  unfold request, bind; rewrite Hget;
  cbv [get_this sdkLogger new_timeout_signal]; cbn [this ticks calls logged];
  rewrite Hsignal;
  cbv [ret try_catch fetch bind]; cbn [this ticks calls logged];
  unfold api_call in Hreply; rewrite Hreply.

Lemma granted_or_refused (w : World) (m : Machine) :
  (exists data, granted w m data) \/ refused w m.
Proof.
  unfold granted, refused.
  destruct (token_reply w m) as [response | e] eqn:Hreply.
  - destruct (Response.ok response) eqn:Hok.
    + destruct (Response.json response) as [data | e] eqn:Hjson.
      * left. exists data, response. auto.
      * right. right. right. exists response, e. auto.
    + right. right. left. exists response. auto.
  - right. left. exists e. reflexivity.
Qed.

Lemma granted_not_refused (w : World) (m : Machine) (data : TokenResponse.t) :
  granted w m data -> refused w m -> False.
Proof.
  intros (response & Hreply & Hok & Hjson).
  intros [(e & H) | [(r & H & Hno) | (r & e & H & _ & Hbad)]];
    rewrite Hreply in H; inversion H; subst; congruence.
Qed.

Lemma refreshToken_granted (w : World) (m : Machine) (data : TokenResponse.t) :
  granted w m data ->
  refreshToken w m =
    (Ok tt,
     mkMachine
       (mkClient (config (this m))
                 (Some (TokenResponse.access_token data))
                 (clock w (ticks m) + or_Z (TokenResponse.expires_in data) 3600 * 1000))
       (S (ticks m))
       (calls m ++ [token_call m])
       ((logged m ++ [(info, "Tentando obter token de acesso"%string)])
          ++ [(info, "Token obtido com sucesso"%string)])).
Proof.
  intros (response & Hreply & Hok & Hjson).
  unfold token_reply, token_call in Hreply.
  run_refresh. rewrite Hreply. cbn [negb]. rewrite Hok. cbn [negb].
  rewrite Hjson. reflexivity.
Qed.

Lemma refreshToken_refused (w : World) (m : Machine) :
  refused w m ->
  exists cause m',
    refreshToken w m = (Err (new_Error ("Falha ao autenticar: " ++ cause)%string), m') /\
    this m' = this m /\
    ticks m' = ticks m /\
    calls m' = calls m ++ [token_call m].
Proof.
  unfold refused, token_reply, token_call.
  intros [(e & Hreply) | [(response & Hreply & Hok) | (response & e & Hreply & Hok & Hjson)]].
  - exists (message e). eexists. run_refresh. rewrite Hreply.
    split; [reflexivity | cbn; destruct (this m); auto].
  - destruct (Response.text response) as [errorText | e] eqn:Htext.
    + eexists. eexists. run_refresh. rewrite Hreply. rewrite Hok. cbn [negb].
      rewrite Htext.
      split; [reflexivity | cbn; destruct (this m); auto].
    + exists (message e). eexists. run_refresh. rewrite Hreply. rewrite Hok.
      cbn [negb]. rewrite Htext.
      split; [reflexivity | cbn; destruct (this m); auto].
  - exists (message e). eexists. run_refresh. rewrite Hreply. rewrite Hok.
    cbn [negb]. rewrite Hjson.
    split; [reflexivity | cbn; destruct (this m); auto].
Qed.


Lemma truthy_string_iff (s : string) : truthy_string s = true <-> s <> ""%string.
Proof.
  unfold truthy_string. rewrite negb_true_iff. apply String.eqb_neq.
Qed.

(** The test [getAccessToken] makes is the freshness of the cache. *)
Lemma fresh_iff_check (w : World) (m : Machine) :
  truthy_opt_string (accessToken (this m))
  && (tokenExpiresAt (this m) >? clock w (ticks m) + 5 * 60 * 1000) = true
  <-> fresh w m.
Proof.
  unfold fresh. rewrite andb_true_iff. split.
  - intros [Htok Hexp]. destruct (accessToken (this m)) as [t |]; [| discriminate].
    exists t. split; [reflexivity |]. split.
    + now apply truthy_string_iff.
    + apply Z.gtb_gt. exact Hexp.
  - intros (t & Htok & Hne & Hexp). rewrite Htok. split.
    + now apply truthy_string_iff.
    + apply Z.gtb_gt. exact Hexp.
Qed.

Lemma getAccessToken_fresh (w : World) (m : Machine) :
  fresh w m -> getAccessToken w m = (Ok (accessToken (this m)), tick m).
Proof.
  intros Hfresh. apply fresh_iff_check in Hfresh.
  unfold getAccessToken, bind, Date_now, get_this, ret.
  cbn [this ticks calls logged]. rewrite Hfresh. reflexivity.
Qed.

Lemma getAccessToken_stale (w : World) (m : Machine) :
  ~ fresh w m ->
  getAccessToken w m =
    match refreshToken w (tick m) with
    | (Ok _, m') => (Ok (accessToken (this m')), m')
    | (Err e, m') => (Err e, m')
    end.
Proof.
  intros Hstale.
  assert (Hcheck : truthy_opt_string (accessToken (this m))
                   && (tokenExpiresAt (this m) >? clock w (ticks m) + 5 * 60 * 1000)
                   = false).
  { apply not_true_is_false. intros H. apply Hstale. now apply fresh_iff_check. }
  unfold getAccessToken, bind, Date_now, get_this, ret.
  cbn [this ticks calls logged]. rewrite Hcheck.
  unfold tick. destruct (refreshToken w _) as [[[] | e] m']; reflexivity.
Qed.


(** ** Claims on the token manager *)

(** C2, as amended. [getAccessToken] leaves the token endpoint alone exactly
    when the cache is fresh: a token that is not empty and expires more than
    five minutes after now. It then returns the cached token, which is
    therefore never within the margin. Otherwise it issues one call to the
    token endpoint; granted, it returns the token it has just stored;
    refused, it fails with the authentication error and keeps the cache. *)
Theorem getAccessToken_reuses_iff_fresh (w : World) (m : Machine) :
  (calls (snd (getAccessToken w m)) = calls m <-> fresh w m) /\
  (calls (snd (getAccessToken w m)) = calls m ->
     fst (getAccessToken w m) = Ok (accessToken (this m)) /\
     this (snd (getAccessToken w m)) = this m /\
     tokenExpiresAt (this m) > clock w (ticks m) + 5 * 60 * 1000) /\
  (calls (snd (getAccessToken w m)) <> calls m ->
     calls (snd (getAccessToken w m)) = calls m ++ [token_call m] /\
     (forall data,
         granted w m data ->
         fst (getAccessToken w m) = Ok (Some (TokenResponse.access_token data)) /\
         accessToken (this (snd (getAccessToken w m)))
         = Some (TokenResponse.access_token data)) /\
     (refused w m ->
        (exists cause,
            fst (getAccessToken w m)
            = Err (new_Error ("Falha ao autenticar: " ++ cause)%string)) /\
        this (snd (getAccessToken w m)) = this m)).
Proof.
  assert (Hgrow : forall l (c : FetchCall), l ++ [c] <> l).
  { intros l c H. apply (f_equal (@length _)) in H.
    rewrite length_app in H. cbn in H. lia. }
  destruct (fresh_iff_check w m) as [Hdec Hdec'].
  destruct (truthy_opt_string (accessToken (this m))
            && (tokenExpiresAt (this m) >? clock w (ticks m) + 5 * 60 * 1000)) eqn:Hcheck.
  - (* the cache is fresh *)
    pose proof (Hdec eq_refl) as Hfresh.
    rewrite (getAccessToken_fresh w m Hfresh). cbn [fst snd tick this calls].
    split; [tauto |]. split.
    + intros _. destruct Hfresh as (t & _ & _ & Hexp). auto.
    + intros Hne. now contradiction Hne.
  - (* the cache is stale *)
    assert (Hstale : ~ fresh w m) by (intros H; apply Hdec' in H; discriminate).
    rewrite (getAccessToken_stale w m Hstale).
    destruct (granted_or_refused w (tick m)) as [(data & Hgrant) | Hrefused].
    + rewrite (refreshToken_granted _ _ _ Hgrant).
      cbn [fst snd tick this calls accessToken].
      split; [split; [intros H; now apply Hgrow in H | tauto] |].
      split; [intros H; now apply Hgrow in H |].
      intros _. split; [reflexivity |]. split.
      * intros data' Hgrant'.
        destruct Hgrant as (r & Hr & _ & Hj), Hgrant' as (r' & Hr' & _ & Hj').
        unfold token_reply, token_call, tick in *. cbn [this calls] in *.
        rewrite Hr in Hr'. inversion Hr'; subst r'. rewrite Hj in Hj'.
        inversion Hj'; subst. auto.
      * intros Hbad. exfalso. now apply (granted_not_refused w (tick m) data).
    + destruct (refreshToken_refused _ _ Hrefused) as (cause & m' & Hrun & Hthis & _ & Hcalls).
      rewrite Hrun. cbn [fst snd]. rewrite Hcalls, Hthis. cbn [tick this calls].
      split; [split; [intros H; now apply Hgrow in H | tauto] |].
      split; [intros H; now apply Hgrow in H |].
      intros _. split; [reflexivity |]. split.
      * intros data Hgrant. exfalso. now apply (granted_not_refused w (tick m) data).
      * intros _. split; [now exists cause | reflexivity].
Qed.

(** C2, the claim as stated fails: the token endpoint grants a token for one
    minute; [getAccessToken], called at time 1000 on an empty cache, hands it
    out although it expires at 61200, within five minutes of 1000. *)
Lemma short_lived_token_is_handed_out :
  fst (getAccessToken world_short_lived new_machine) = Ok (Some "short-lived"%string) /\
  tokenExpiresAt (this (snd (getAccessToken world_short_lived new_machine))) = 61200 /\
  clock world_short_lived (ticks new_machine) = 1000 /\
  61200 <= 1000 + 5 * 60 * 1000.
Proof.
  repeat split; try reflexivity. lia.
Qed.

(** C3, as amended. When the token endpoint grants a token, [refreshToken]
    succeeds, stores the token and sets the expiry to now plus the lifetime
    in milliseconds, the lifetime being [expires_in] seconds when that field
    is there and is not zero, and 3600 seconds when it is absent or zero. *)
Theorem refreshToken_stores_token_and_expiry
  (w : World) (m : Machine) (data : TokenResponse.t) :
  granted w m data ->
  fst (refreshToken w m) = Ok tt /\
  accessToken (this (snd (refreshToken w m))) = Some (TokenResponse.access_token data) /\
  tokenExpiresAt (this (snd (refreshToken w m)))
  = clock w (ticks m)
    + match TokenResponse.expires_in data with
      | Some seconds => if seconds =? 0 then 3600 else seconds
      | None => 3600
      end * 1000.
Proof.
  intros Hgrant. rewrite (refreshToken_granted w m data Hgrant).
  cbn [fst snd this accessToken tokenExpiresAt].
  repeat split. unfold or_Z.
  destruct (TokenResponse.expires_in data) as [seconds |]; [| reflexivity].
  destruct (seconds =? 0); reflexivity.
Qed.

(** C3 at work: a token granted for two hours at time 1000. *)
Lemma refreshToken_stores_token_and_expiry_witness :
  granted world_two_hours new_machine (TokenResponse.mk "tok" (Some 7200)) /\
  fst (refreshToken world_two_hours new_machine) = Ok tt /\
  accessToken (this (snd (refreshToken world_two_hours new_machine))) = Some "tok"%string /\
  tokenExpiresAt (this (snd (refreshToken world_two_hours new_machine)))
  = 1000 + 7200 * 1000.
Proof.
  assert (H : granted world_two_hours new_machine (TokenResponse.mk "tok" (Some 7200))).
  { exists (grant "tok" (Some 7200)). repeat split. }
  split; [exact H |].
  exact (refreshToken_stores_token_and_expiry world_two_hours new_machine _ H).
Defined.

(** C3, the claim as stated fails: a granted lifetime of zero seconds is
    there in the response, yet the expiry is set an hour after now (1000),
    not to now plus zero. *)
Lemma zero_lifetime_is_not_now :
  granted world_zero_lifetime new_machine (TokenResponse.mk "tok" (Some 0)) /\
  tokenExpiresAt (this (snd (refreshToken world_zero_lifetime new_machine)))
  = 1000 + 3600 * 1000 /\
  (tokenExpiresAt (this (snd (refreshToken world_zero_lifetime new_machine)))
   =? 1000 + 0 * 1000) = false.
Proof.
  split; [exists (grant "tok" (Some 0)); repeat split |].
  split; reflexivity.
Qed.


(** C9. A granted lifetime of zero is taken like an absent one: the expiry
    is set to now plus 3600 seconds, and the run is the very run of a world
    that answers the same but for leaving [expires_in] out. *)
Theorem refreshToken_zero_lifetime_is_default
  (w : World) (m : Machine) (data : TokenResponse.t) :
  granted w m data ->
  TokenResponse.expires_in data = Some 0 ->
  tokenExpiresAt (this (snd (refreshToken w m))) = clock w (ticks m) + 3600 * 1000 /\
  forall w',
    clock w' (ticks m) = clock w (ticks m) ->
    granted w' m (TokenResponse.mk (TokenResponse.access_token data) None) ->
    refreshToken w' m = refreshToken w m.
Proof.
  intros Hgrant Hzero. rewrite (refreshToken_granted w m data Hgrant).
  cbn [fst snd this tokenExpiresAt]. rewrite Hzero. split; [reflexivity |].
  intros w' Hclock Hgrant'. rewrite (refreshToken_granted w' m _ Hgrant').
  cbn [TokenResponse.access_token TokenResponse.expires_in]. rewrite Hclock.
  reflexivity.
Qed.

(** C9 at work: the runs on a lifetime of zero and on no lifetime at all. *)
Lemma refreshToken_zero_lifetime_is_default_witness :
  granted world_zero_lifetime new_machine (TokenResponse.mk "tok" (Some 0)) /\
  tokenExpiresAt (this (snd (refreshToken world_zero_lifetime new_machine)))
  = 1000 + 3600 * 1000 /\
  refreshToken world_no_lifetime new_machine = refreshToken world_zero_lifetime new_machine.
Proof.
  assert (H : granted world_zero_lifetime new_machine (TokenResponse.mk "tok" (Some 0))).
  { exists (grant "tok" (Some 0)). repeat split. }
  destruct (refreshToken_zero_lifetime_is_default world_zero_lifetime new_machine _ H eq_refl)
    as [Hexpiry Hsame].
  split; [exact H |]. split; [exact Hexpiry |].
  apply Hsame; [reflexivity |].
  exists (grant "tok" None). repeat split.
Defined.

(** ** The constructor *)

Lemma or_string_setting (given : option string) (dflt : string) :
  string_setting given dflt (or_string given dflt).
Proof.
  unfold string_setting, or_string, truthy_string. split.
  - intros [-> | ->]; reflexivity.
  - intros s -> Hne. apply String.eqb_neq in Hne. now rewrite Hne.
Qed.

Lemma or_Z_setting (given : option Z) (dflt : Z) :
  number_setting given dflt (or_Z given dflt).
Proof.
  unfold number_setting, or_Z. split.
  - intros [-> | ->]; reflexivity.
  - intros z -> Hne. apply Z.eqb_neq in Hne. now rewrite Hne.
Qed.

(** C4. Constructing the client fails, with the configuration error, exactly
    when the client identifier or the client secret is missing (left out or
    empty), whatever the other fields are. When both are there the client is
    made with them, with an empty token cache, and with each of realm, the
    two base addresses and the timeout set to what was given or else to its
    default. *)
Theorem constructor_fails_iff_credential_missing (cfg : StackSpotConfig.t) :
  (constructor cfg = Err (new_Error "clientId e clientSecret são obrigatórios")
   <-> missing (StackSpotConfig.clientId cfg) \/ missing (StackSpotConfig.clientSecret cfg)) /\
  (forall e, constructor cfg = Err e ->
             e = new_Error "clientId e clientSecret são obrigatórios") /\
  (forall id secret,
      StackSpotConfig.clientId cfg = Some id ->
      StackSpotConfig.clientSecret cfg = Some secret ->
      id <> ""%string -> secret <> ""%string ->
      exists c,
        constructor cfg = Ok (mkClient c None 0) /\
        InternalConfig.clientId c = id /\
        InternalConfig.clientSecret c = secret /\
        string_setting (StackSpotConfig.realm cfg) "stackspot-freemium"
                       (InternalConfig.realm c) /\
        string_setting (StackSpotConfig.baseURL cfg) "https://idm.stackspot.com"
                       (InternalConfig.baseURL c) /\
        string_setting (StackSpotConfig.inferenceBaseURL cfg)
                       "https://genai-inference-app.stackspot.com"
                       (InternalConfig.inferenceBaseURL c) /\
        number_setting (StackSpotConfig.timeout cfg) 30000 (InternalConfig.timeout c) /\
        InternalConfig.toolExecutor c = StackSpotConfig.toolExecutor cfg /\
        InternalConfig.enableFunctionCalling c
        = StackSpotConfig.enableFunctionCalling cfg).
Proof.
  unfold constructor, missing.
  destruct (StackSpotConfig.clientId cfg) as [id |];
    [destruct (StackSpotConfig.clientSecret cfg) as [secret |] |].
  - cbn [InternalConfig.clientId InternalConfig.clientSecret].
    unfold truthy_string. rewrite !negb_involutive.
    destruct (String.eqb_spec id "") as [-> | Hid];
      [| destruct (String.eqb_spec secret "") as [-> | Hsecret]]; cbn [orb].
    + split; [split; auto |]. split; [intros e H; now inversion H |].
      intros id' secret' H. inversion H. congruence.
    + split; [split; auto |]. split; [intros e H; now inversion H |].
      intros id' secret' _ H. inversion H. congruence.
    + split.
      { split; [discriminate |].
        intros [[H | H] | [H | H]]; inversion H; congruence. }
      split; [discriminate |].
      intros id' secret' H1 H2 _ _. inversion H1. inversion H2. subst.
      eexists. split; [reflexivity |].
      cbn. repeat split;
        first [ apply or_string_setting | apply or_Z_setting
              | apply (proj1 (or_string_setting _ _)) | apply (proj2 (or_string_setting _ _))
              | apply (proj1 (or_Z_setting _ _)) | apply (proj2 (or_Z_setting _ _)) ].
  - split; [split; auto |]. split; [intros e H; now inversion H |]. discriminate.
  - split; [split; auto |]. split; [intros e H; now inversion H |]. discriminate.
Qed.

(** ** The request dispatcher *)

Section Dispatcher.
Context {rt : JsRuntime}.
Variables (w : World) (m : Machine) (method path : string).
Variable options : option RequestOptions.t.

(** [new Error(v)] makes the error [error_of_value v], or throws it when it
    is the TypeError of a value that has no string. *)
Lemma new_Error_of_cases (v : JsValue) (m0 : Machine) :
  (new_Error_of v m0 = (Ok (error_of_value v), m0) /\
   name (error_of_value v) = "Error"%string) \/
  (new_Error_of v m0 = (Err (error_of_value v), m0) /\
   name (error_of_value v) = "TypeError"%string).
Proof.
  unfold new_Error_of, error_of_value, throw, ret.
  destruct v; try (left; split; reflexivity);
    match goal with
    | |- context [ToString ?x] =>
        destruct (ToString x); [left | right]; split; reflexivity
    end.
Qed.

(** Without a token there is no request. *)
Lemma request_unauthenticated (e : JsError) (m1 : Machine) :
  getAccessToken w m = (Err e, m1) ->
  request w method path options m = (Err e, m1).
Proof.
  intros Hget. unfold request, bind. rewrite Hget. reflexivity.
Qed.

Lemma request_timer_refused (e : JsError) :
  timer_refused w m e -> fst (request w method path options m) = Err e.
Proof.
  intros (token & m1 & Hget & Hsignal).
  unfold request, bind. rewrite Hget.
  cbv [get_this sdkLogger new_timeout_signal]. cbn [this ticks calls logged].
  rewrite Hsignal. reflexivity.
Qed.

Lemma request_rejected (e : JsError) :
  dispatched w m method path options (Err e) ->
  fst (request w method path options m) = Err (rethrown e).
Proof.
  intros (token & m1 & Hget & Hsignal & Hreply).
  run_request Hget Hsignal Hreply.
  unfold rethrown, throw. destruct (name e =? "AbortError")%string; reflexivity.
Qed.

Lemma request_not_ok (response : Response.t) (errorText : string) :
  dispatched w m method path options (Ok response) ->
  Response.ok response = false ->
  Response.text response = Ok errorText ->
  fst (request w method path options m)
  = Err (error_of_value (errorMessage_of response errorText)).
Proof.
  intros (token & m1 & Hget & Hsignal & Hreply) Hok Htext.
  run_request Hget Hsignal Hreply.
  rewrite Hok. cbn [negb]. unfold await. rewrite Htext.
  cbn [this ticks calls logged].
  match goal with
  | |- context [new_Error_of ?v ?m0] =>
      destruct (new_Error_of_cases v m0) as [[Hnew Hname] | [Hnew Hname]]
  end; rewrite Hnew; unfold throw; rewrite Hname; reflexivity.
Qed.

Lemma request_not_ok_unread (response : Response.t) (e : JsError) :
  dispatched w m method path options (Ok response) ->
  Response.ok response = false ->
  Response.text response = Err e ->
  fst (request w method path options m) = Err (rethrown e).
Proof.
  intros (token & m1 & Hget & Hsignal & Hreply) Hok Htext.
  run_request Hget Hsignal Hreply.
  rewrite Hok. cbn [negb]. unfold await. rewrite Htext.
  unfold rethrown, throw. destruct (name e =? "AbortError")%string; reflexivity.
Qed.

Lemma request_stream (response : Response.t) :
  dispatched w m method path options (Ok response) ->
  Response.ok response = true ->
  truthy_opt_bool (RequestOptions.stream (options_of options)) = true ->
  fst (request w method path options m) = Ok (ReturnedResponse response).
Proof.
  intros (token & m1 & Hget & Hsignal & Hreply) Hok Hstream.
  run_request Hget Hsignal Hreply.
  rewrite Hok. cbn [negb]. rewrite Hstream. reflexivity.
Qed.

Lemma request_ok_text (response : Response.t) (responseText : string) :
  dispatched w m method path options (Ok response) ->
  Response.ok response = true ->
  truthy_opt_bool (RequestOptions.stream (options_of options)) = false ->
  Response.text response = Ok responseText ->
  fst (request w method path options m)
  = Ok (ReturnedValue match JSON_parse responseText with
                      | Some parsedResponse => parsedResponse
                      | None => JString responseText
                      end).
Proof.
  intros (token & m1 & Hget & Hsignal & Hreply) Hok Hstream Htext.
  run_request Hget Hsignal Hreply.
  rewrite Hok. cbn [negb]. rewrite Hstream. unfold await. rewrite Htext.
  destruct (JSON_parse responseText); reflexivity.
Qed.

Lemma request_ok_unread (response : Response.t) (e : JsError) :
  dispatched w m method path options (Ok response) ->
  Response.ok response = true ->
  truthy_opt_bool (RequestOptions.stream (options_of options)) = false ->
  Response.text response = Err e ->
  fst (request w method path options m) = Err (rethrown e).
Proof.
  intros (token & m1 & Hget & Hsignal & Hreply) Hok Hstream Htext.
  run_request Hget Hsignal Hreply.
  rewrite Hok. cbn [negb]. rewrite Hstream. unfold await. rewrite Htext.
  unfold rethrown, throw. destruct (name e =? "AbortError")%string; reflexivity.
Qed.

(** The one call a dispatched request adds to those of [getAccessToken]. *)
Lemma request_calls (token : option string) (m1 : Machine) :
  getAccessToken w m = (Ok token, m1) ->
  AbortSignal_timeout (InternalConfig.timeout (config (this m1))) = None ->
  calls (snd (request w method path options m))
  = calls m1 ++ [api_call m1 token method path options].
Proof.
  intros Hget Hsignal.
  unfold request, bind; rewrite Hget;
  cbv [get_this sdkLogger new_timeout_signal]; cbn [this ticks calls logged];
  rewrite Hsignal;
  cbv [ret try_catch fetch bind]; cbn [this ticks calls logged].
  fold (api_call m1 token method path options).
  destruct (network w _ _) as [response | e].
  - destruct (negb (Response.ok response)).
    + unfold await. destruct (Response.text response) as [errorText | e].
      * cbn [this ticks calls logged].
        match goal with
        | |- context [new_Error_of ?v ?m0] =>
            destruct (new_Error_of_cases v m0) as [[Hnew _] | [Hnew _]]
        end; rewrite Hnew; unfold throw;
          destruct (name _ =? "AbortError")%string; reflexivity.
      * unfold throw. destruct (name e =? "AbortError")%string; reflexivity.
    + destruct (truthy_opt_bool _); [reflexivity |].
      unfold await. destruct (Response.text response) as [responseText | e].
      * destruct (JSON_parse responseText); reflexivity.
      * unfold throw. destruct (name e =? "AbortError")%string; reflexivity.
  - unfold throw. destruct (name e =? "AbortError")%string; reflexivity.
Qed.

End Dispatcher.

(** ** Claims on the request dispatcher *)

Section DispatcherClaims.
Context {rt : JsRuntime}.
Variables (w : World) (m : Machine) (method path : string).
Variable options : option RequestOptions.t.

Lemma get_prop_field (v : JsValue) (k : string) :
  v <> JNull -> v <> JUndefined -> get_prop v k = Some (field v k).
Proof.
  intros Hnull Hundef. destruct v; try reflexivity; try congruence.
  cbn. destruct (get_own props k); reflexivity.
Qed.

Lemma or_string_text (s dflt : string) :
  or_string (Some s) dflt = if (s =? "")%string then dflt else s.
Proof.
  unfold or_string, truthy_string. destruct (s =? "")%string; reflexivity.
Qed.


(** C1, as amended. For a response of the resource API whose status is not
    a success, [request] fails with an error whose message is: when the
    body parses as JSON (and is not null), the string of its [message] field
    if that is truthy, else of its [error] field if that is truthy, else the
    generic HTTP line; when the body does not parse (or is null), the raw
    text of the body, or the generic HTTP line for an empty body. A field
    that is a string is its own string. *)
Theorem request_error_message (response : Response.t) (errorText : string) :
  dispatched w m method path options (Ok response) ->
  Response.ok response = false ->
  Response.text response = Ok errorText ->
  let generic :=
    ("HTTP " ++ string_of_Z (Response.status response) ++ ": "
     ++ Response.statusText response)%string in
  let failure := fst (request w method path options m) in
  (forall errorJson,
      JSON_parse errorText = Some errorJson ->
      errorJson <> JNull -> errorJson <> JUndefined ->
      (truthy (field errorJson "message") = true ->
       failure = Err (error_of_value (field errorJson "message"))) /\
      (truthy (field errorJson "message") = false ->
       truthy (field errorJson "error") = true ->
       failure = Err (error_of_value (field errorJson "error"))) /\
      (truthy (field errorJson "message") = false ->
       truthy (field errorJson "error") = false ->
       failure = Err (new_Error generic))) /\
  (JSON_parse errorText = None \/ JSON_parse errorText = Some JNull
   \/ JSON_parse errorText = Some JUndefined ->
   failure = Err (new_Error (if (errorText =? "")%string then generic else errorText))) /\
  (forall s, error_of_value (JString s) = new_Error s).
Proof.
  intros Hdispatched Hok Htext generic failure.
  assert (Hfail : failure = Err (error_of_value (errorMessage_of response errorText)))
    by (apply request_not_ok; assumption).
  split; [| split; [| reflexivity]].
  - intros errorJson Hparse Hnull Hundef.
    rewrite Hfail. unfold errorMessage_of. rewrite Hparse.
    rewrite !(get_prop_field errorJson) by assumption.
    repeat split.
    + intros Hmsg. now rewrite Hmsg.
    + intros Hmsg Herr. rewrite Hmsg. unfold js_or. now rewrite Herr.
    + intros Hmsg Herr. rewrite Hmsg. unfold js_or. now rewrite Herr.
  - intros Hparse. rewrite Hfail. unfold errorMessage_of.
    destruct Hparse as [-> | [-> | ->]]; cbn [get_prop];
      rewrite or_string_text; reflexivity.
Qed.

(** C6. For a success response outside streaming mode whose body reads as
    [responseText], [request] returns the value [JSON.parse] makes of it,
    and the text itself, unchanged, when it does not parse. *)
Theorem request_success_body (response : Response.t) (responseText : string) :
  dispatched w m method path options (Ok response) ->
  Response.ok response = true ->
  truthy_opt_bool (RequestOptions.stream (options_of options)) = false ->
  Response.text response = Ok responseText ->
  (forall parsedResponse,
      JSON_parse responseText = Some parsedResponse ->
      fst (request w method path options m) = Ok (ReturnedValue parsedResponse)) /\
  (JSON_parse responseText = None ->
   fst (request w method path options m) = Ok (ReturnedValue (JString responseText))).
Proof.
  intros Hdispatched Hok Hstream Htext.
  rewrite (request_ok_text w m method path options response responseText) by assumption.
  split.
  - intros parsedResponse ->. reflexivity.
  - intros ->. reflexivity.
Qed.


(** C10. The call [request] issues carries no body when [options.body] is
    falsy, in streaming mode as well; it carries the body itself in
    streaming mode, and its JSON text otherwise, only when the body is
    truthy. Undefined, null, zero, false and the empty string are falsy. *)
Theorem request_attaches_body_iff_truthy (token : option string) (m1 : Machine) :
  getAccessToken w m = (Ok token, m1) ->
  AbortSignal_timeout (InternalConfig.timeout (config (this m1))) = None ->
  exists c,
    calls (snd (request w method path options m)) = calls m1 ++ [c] /\
    FetchRequestInit.method (call_init c) = method /\
    (truthy (RequestOptions.body (options_of options)) = false ->
     FetchRequestInit.body (call_init c) = None) /\
    (truthy (RequestOptions.body (options_of options)) = true ->
     FetchRequestInit.body (call_init c)
     = if truthy_opt_bool (RequestOptions.stream (options_of options))
       then Some (BodyRaw (RequestOptions.body (options_of options)))
       else option_map BodyText (JSON_stringify (RequestOptions.body (options_of options)))) /\
    (forall v,
        In v [JUndefined; JNull; JNumber (num_of_Z 0); JBool false; JString ""] ->
        truthy v = false).
Proof.
  intros Hget Hsignal.
  exists (api_call m1 token method path options).
  split; [now apply request_calls |].
  split; [reflexivity |].
  cbn [api_call call_init fetchOptions_of FetchRequestInit.body].
  split; [intros ->; reflexivity |].
  split; [intros ->; reflexivity |].
  intros v Hin. cbn in Hin.
  repeat (destruct Hin as [<- | Hin]; [reflexivity |]). contradiction.
Qed.

(** C8. Each verb wrapper is [request] with its method fixed: [get] and
    [delete] pass path and options on, [post] and [put] pass the options
    with the body set in them, all other options as they were. *)
Theorem verb_wrappers_are_request (body : JsValue) :
  get w path options m = request w "GET" path options m /\
  post w path body options m = request w "POST" path (Some (with_body options body)) m /\
  put w path body options m = request w "PUT" path (Some (with_body options body)) m /\
  delete w path options m = request w "DELETE" path options m /\
  RequestOptions.body (with_body options body) = body /\
  RequestOptions.headers (with_body options body)
  = RequestOptions.headers (options_of options) /\
  RequestOptions.baseURL (with_body options body)
  = RequestOptions.baseURL (options_of options) /\
  RequestOptions.stream (with_body options body)
  = RequestOptions.stream (options_of options).
Proof.
  unfold get, post, put, delete, with_body, options_of.
  destruct options as [o |]; repeat split; reflexivity.
Qed.

End DispatcherClaims.

(** ** The reference runtime on examples *)

Example parse_values :
  JSON_parse " [1, 2.50, -3e2, true, null, [], {}] "
  = Some (JArray [JNumber (mkNum 1 0); JNumber (mkNum 250 (-2)); JNumber (mkNum (-3) 2);
                  JBool true; JNull; JArray []; JObject []]).
Proof. vm_compute. reflexivity. Qed.

Example parse_refuses :
  map JSON_parse [""; "not json"; "01"; "1."; "[1,]"; "{} {}"; "nul"]
  = [None; None; None; None; None; None; None].
Proof. vm_compute. reflexivity. Qed.

Example parse_last_duplicate_wins :
  JSON_parse bad_request_body = Some (JObject [("message", JString "bad request")]) /\
  option_map (fun v => field v "a")
             (JSON_parse ("{" ++ dq ++ "a" ++ dq ++ ":1," ++ dq ++ "a" ++ dq ++ ":2}")%string)
  = Some (JNumber (mkNum 2 0)).
Proof. split; vm_compute; reflexivity. Qed.

Example stringify_values :
  JSON_stringify (JArray [JNumber (mkNum 25 (-1)); JNumber (mkNum 1 21); JUndefined;
                          JObject [("k", JString "v"); ("u", JUndefined)]])
  = Some ("[2.5,1e+21,null,{" ++ dq ++ "k" ++ dq ++ ":" ++ dq ++ "v" ++ dq ++ "}]")%string.
Proof. vm_compute. reflexivity. Qed.

Example falsy_numbers :
  map truthy [JNumber (mkNum 0 0); JNumber (mkNum 0 5); JNumber (mkNum 1 (-400));
              JNumber (mkNum 1 (-300)); JNumber (mkNum (-1) 0)]
  = [false; false; false; true; true].
Proof. vm_compute. reflexivity. Qed.

Example timer_delays :
  map AbortSignal_timeout [0; 30000; 4294967295]
  = [None; None; None] /\
  option_map name (AbortSignal_timeout (-1)) = Some "RangeError"%string.
Proof. split; vm_compute; reflexivity. Qed.

(** ** The claims at work, on the reference runtime *)

(** C4 at work: the scenarios run the client this configuration makes, and
    a configuration with an empty secret makes none. *)
Example constructor_demo :
  constructor demo_config = Ok (mkClient demo_internal None 0) /\
  constructor (StackSpotConfig.mk (Some "my-client") (Some "") (Some "realm") None None
                                  (Some 5000) None (Some true))
  = Err (new_Error "clientId e clientSecret são obrigatórios").
Proof. split; reflexivity. Qed.


(** In the worlds of the scenarios the first call grants the token and the
    second, the request itself, settles as [later]. *)
Lemma dispatched_after_grant (later : Result Response.t) :
  dispatched (world_of (Ok (grant "tok" (Some 3600))) later) new_machine
             "GET" "/v1/agents" None later.
Proof.
  eexists. eexists. split; [vm_compute; reflexivity |]. split; reflexivity.
Defined.

(** C2 at work: a token cached until 10000000 is reused at time 1000, and
    the token endpoint is not called. *)
Lemma getAccessToken_reuses_iff_fresh_witness :
  fresh world_two_hours (machine_with_token "cached" 10000000) /\
  fst (getAccessToken world_two_hours (machine_with_token "cached" 10000000))
  = Ok (Some "cached"%string) /\
  calls (snd (getAccessToken world_two_hours (machine_with_token "cached" 10000000))) = [].
Proof.
  assert (H : fresh world_two_hours (machine_with_token "cached" 10000000)).
  { exists "cached"%string. split; [reflexivity | split; [discriminate | reflexivity]]. }
  destruct (getAccessToken_reuses_iff_fresh world_two_hours
              (machine_with_token "cached" 10000000)) as [[_ Hcalls] [Hcached _]].
  split; [exact H |].
  split; [exact (proj1 (Hcached (Hcalls H))) | exact (Hcalls H)].
Defined.

(** C1, the claim as stated fails: the body {} parses as JSON and has
    neither field, and the message is the generic HTTP line, not the raw
    text of the body. *)
Lemma empty_json_error_is_generic :
  JSON_parse "{}" = Some (JObject []) /\
  dispatched world_empty_object new_machine "GET" "/v1/agents" None
             (Ok (reply 400 "Bad Request" "{}")) /\
  fst (request world_empty_object "GET" "/v1/agents" None new_machine)
  = Err (new_Error "HTTP 400: Bad Request") /\
  ("HTTP 400: Bad Request" =? "{}")%string = false.
Proof.
  split; [reflexivity |].
  split; [apply dispatched_after_grant |].
  split; [vm_compute; reflexivity | reflexivity].
Qed.

(** C1 at work: the JSON body with the message "bad request". *)
Lemma request_error_message_witness :
  dispatched world_bad_request new_machine "GET" "/v1/agents" None
             (Ok (reply 400 "Bad Request" bad_request_body)) /\
  fst (request world_bad_request "GET" "/v1/agents" None new_machine)
  = Err (new_Error "bad request").
Proof.
  split; [apply dispatched_after_grant |].
  destruct (request_error_message world_bad_request new_machine "GET" "/v1/agents" None
              (reply 400 "Bad Request" bad_request_body) bad_request_body
              (dispatched_after_grant _) eq_refl eq_refl) as [Hjson _].
  assert (Hparse : JSON_parse bad_request_body
                   = Some (JObject [("message"%string, JString "bad request")]))
    by (vm_compute; reflexivity).
  destruct (Hjson _ Hparse) as [Hmessage _]; [discriminate | discriminate |].
  exact (Hmessage eq_refl).
Defined.

(** C6 at work: the success body "not json" comes back as that string. *)
Lemma request_success_body_witness :
  dispatched world_not_json new_machine "GET" "/v1/agents" None
             (Ok (reply 200 "OK" "not json")) /\
  JSON_parse "not json" = None /\
  fst (request world_not_json "GET" "/v1/agents" None new_machine)
  = Ok (ReturnedValue (JString "not json")).
Proof.
  split; [apply dispatched_after_grant |].
  assert (Hparse : JSON_parse "not json" = None) by (vm_compute; reflexivity).
  split; [exact Hparse |].
  exact (proj2 (request_success_body world_not_json new_machine "GET" "/v1/agents" None
                  (reply 200 "OK" "not json") "not json"
                  (dispatched_after_grant _) eq_refl eq_refl eq_refl) Hparse).
Defined.



(** C10 at work: the body zero of a streaming request is not attached. *)
Lemma request_attaches_body_iff_truthy_witness :
  truthy (RequestOptions.body options_zero_stream) = false /\
  exists c,
    calls (snd (request world_not_json "POST" "/v1/chat" (Some options_zero_stream)
                        new_machine))
    = [token_call new_machine; c] /\
    FetchRequestInit.method (call_init c) = "POST"%string /\
    FetchRequestInit.body (call_init c) = None.
Proof.
  split; [reflexivity |].
  assert (Hget : getAccessToken world_not_json new_machine
                 = (Ok (Some "tok"%string), snd (getAccessToken world_not_json new_machine)))
    by (vm_compute; reflexivity).
  assert (Hsignal : AbortSignal_timeout
                      (InternalConfig.timeout
                         (config (this (snd (getAccessToken world_not_json new_machine)))))
                    = None)
    by (vm_compute; reflexivity).
  destruct (request_attaches_body_iff_truthy world_not_json new_machine "POST" "/v1/chat"
              (Some options_zero_stream) (Some "tok"%string) _ Hget Hsignal)
    as (c & Hcalls & Hmethod & Hfalsy & _).
  exists c. split; [exact Hcalls |]. split; [exact Hmethod |].
  exact (Hfalsy eq_refl).
Defined.

(** * Further properties of the client *)

(** ** The token manager across calls *)

(** What a stale cache makes of [getAccessToken]: one call to the token
    endpoint, and the object as the refresh leaves it. *)
Lemma getAccessToken_stale_run (w : World) (m : Machine) :
  ~ fresh w m ->
  calls (snd (getAccessToken w m)) = calls m ++ [token_call m] /\
  (forall data,
      granted w m data ->
      getAccessToken w m
      = (Ok (Some (TokenResponse.access_token data)),
         snd (refreshToken w (tick m))) /\
      this (snd (getAccessToken w m))
      = mkClient (config (this m)) (Some (TokenResponse.access_token data))
                 (clock w (S (ticks m))
                  + or_Z (TokenResponse.expires_in data) 3600 * 1000)) /\
  (refused w m ->
   exists cause,
     fst (getAccessToken w m) = Err (new_Error ("Falha ao autenticar: " ++ cause)%string) /\
     this (snd (getAccessToken w m)) = this m).
Proof.
  intros Hstale. rewrite (getAccessToken_stale w m Hstale).
  destruct (granted_or_refused w (tick m)) as [(data & Hgrant) | Hrefused].
  - rewrite (refreshToken_granted _ _ _ Hgrant). cbn [fst snd tick this calls ticks].
    split; [reflexivity |]. split.
    + intros data' Hgrant'.
      assert (data' = data) as ->.
      { destruct Hgrant as (r & Hr & _ & Hj), Hgrant' as (r' & Hr' & _ & Hj').
        unfold token_reply, token_call, tick in *. cbn [this calls] in *.
        rewrite Hr in Hr'. inversion Hr'; subst r'. rewrite Hj in Hj'.
        now inversion Hj'. }
      split; reflexivity.
    + intros Hbad. exfalso. now apply (granted_not_refused w (tick m) data).
  - destruct (refreshToken_refused _ _ Hrefused) as (cause & m' & Hrun & Hthis & _ & Hcalls).
    rewrite Hrun. cbn [fst snd]. rewrite Hcalls, Hthis. cbn [tick this calls].
    split; [reflexivity |]. split.
    + intros data Hgrant. exfalso. now apply (granted_not_refused w (tick m) data).
    + intros _. now exists cause.
Qed.



(** X2. A token obtained by a refresh is reused by every later call of
    [getAccessToken] whose reading of the clock is more than five minutes
    before the expiry the refresh stored (with a lifetime of 3600 seconds:
    for 55 minutes), and the first call at or after that point refreshes
    again, with one call to the token endpoint. *)
Theorem token_is_reused_until_margin
  (w : World) (m m2 : Machine) (data : TokenResponse.t) :
  ~ fresh w m ->
  granted w m data ->
  TokenResponse.access_token data <> ""%string ->
  this m2 = this (snd (getAccessToken w m)) ->
  let expiry :=
    clock w (S (ticks m))
    + match TokenResponse.expires_in data with
      | Some seconds => if seconds =? 0 then 3600 else seconds
      | None => 3600
      end * 1000 in
  (clock w (ticks m2) + 5 * 60 * 1000 < expiry ->
   getAccessToken w m2 = (Ok (Some (TokenResponse.access_token data)), tick m2)) /\
  (expiry <= clock w (ticks m2) + 5 * 60 * 1000 ->
   calls (snd (getAccessToken w m2)) = calls m2 ++ [token_call m2]).
Proof.
  intros Hstale Hgrant Hne Hthis expiry.
  destruct (getAccessToken_stale_run w m Hstale) as (_ & Hgranted & _).
  destruct (Hgranted data Hgrant) as [_ Hstored]. rewrite Hstored in Hthis.
  assert (Hexpiry : tokenExpiresAt (this m2) = expiry).
  { rewrite Hthis. cbn [tokenExpiresAt]. unfold expiry, or_Z.
    destruct (TokenResponse.expires_in data) as [seconds |]; [| reflexivity].
    destruct (seconds =? 0); reflexivity. }
  split.
  - intros Hearly.
    assert (Hfresh : fresh w m2).
    { exists (TokenResponse.access_token data). rewrite Hexpiry, Hthis.
      cbn [accessToken]. repeat split; [assumption | lia]. }
    rewrite (getAccessToken_fresh w m2 Hfresh). rewrite Hthis. reflexivity.
  - intros Hlate.
    assert (Hstale2 : ~ fresh w m2).
    { intros (t & _ & _ & Hgt). rewrite Hexpiry in Hgt. lia. }
    exact (proj1 (getAccessToken_stale_run w m2 Hstale2)).
Qed.

Lemma new_machine_is_stale (w : World) : ~ fresh w new_machine.
Proof. intros (t & Htok & _). discriminate. Qed.

(** X2 at work: the token stored at time 1200 for two hours is reused at
    time 1400. *)
Lemma token_is_reused_until_margin_witness :
  getAccessToken world_two_hours (snd (getAccessToken world_two_hours new_machine))
  = (Ok (Some "tok"%string), tick (snd (getAccessToken world_two_hours new_machine))).
Proof.
  refine (proj1 (token_is_reused_until_margin world_two_hours new_machine
                   (snd (getAccessToken world_two_hours new_machine))
                   (TokenResponse.mk "tok" (Some 7200))
                   (new_machine_is_stale _) _ _ eq_refl) _).
  - exists (grant "tok" (Some 7200)). repeat split.
  - discriminate.
  - vm_compute. reflexivity.
Defined.

(** X3. A client that has just been constructed holds no token: its first
    [getAccessToken] issues the call to the token endpoint, whatever the
    clock reads. *)
Theorem new_client_authenticates_first
  (cfg : StackSpotConfig.t) (c : StackSpotClient) (w : World)
  (n : nat) (sent : list FetchCall) (entries : list (LogLevel * string)) :
  constructor cfg = Ok c ->
  calls (snd (getAccessToken w (mkMachine c n sent entries)))
  = sent ++ [token_call (mkMachine c n sent entries)].
Proof.
  intros Hnew.
  assert (Hnone : accessToken c = None).
  { unfold constructor in Hnew.
    destruct (StackSpotConfig.clientId cfg); [| discriminate].
    destruct (StackSpotConfig.clientSecret cfg); [| discriminate].
    destruct (_ || _); [discriminate |]. now inversion Hnew. }
  apply (getAccessToken_stale_run w (mkMachine c n sent entries)).
  intros (t & Htok & _). cbn [this] in Htok. congruence.
Qed.

Lemma new_client_authenticates_first_witness :
  calls (snd (getAccessToken world_two_hours new_machine)) = [token_call new_machine].
Proof.
  exact (new_client_authenticates_first demo_config (mkClient demo_internal None 0)
           world_two_hours 0%nat [] [] eq_refl).
Defined.

(** ** Failures of the refresh *)

(** X4. A failed refresh says why: the error of a rejected call, of a body
    that could not be read or of a success that is not JSON is passed on
    after "Falha ao autenticar: ", and a status that is not a success gives
    its code, its text and the body of the response. The last entry logged
    by a failed refresh is the error "Falha ao autenticar". *)
Theorem refreshToken_failure_message (w : World) (m : Machine) :
  (forall e,
      token_reply w m = Err e ->
      fst (refreshToken w m) = Err (new_Error ("Falha ao autenticar: " ++ message e)%string)) /\
  (forall response,
      token_reply w m = Ok response ->
      Response.ok response = false ->
      (forall errorText,
          Response.text response = Ok errorText ->
          fst (refreshToken w m)
          = Err (new_Error ("Falha ao autenticar: Erro ao obter token: "
                            ++ string_of_Z (Response.status response) ++ " "
                            ++ Response.statusText response ++ " - " ++ errorText)%string)) /\
      (forall e,
          Response.text response = Err e ->
          fst (refreshToken w m)
          = Err (new_Error ("Falha ao autenticar: " ++ message e)%string))) /\
  (forall response e,
      token_reply w m = Ok response ->
      Response.ok response = true ->
      Response.json response = Err e ->
      fst (refreshToken w m) = Err (new_Error ("Falha ao autenticar: " ++ message e)%string)) /\
  (forall e,
      fst (refreshToken w m) = Err e ->
      exists before,
        logged (snd (refreshToken w m)) = before ++ [(error, "Falha ao autenticar"%string)]).
Proof.
  unfold token_reply, token_call.
  repeat split.
  - intros e Hreply. run_refresh. rewrite Hreply. reflexivity.
  - intros errorText Htext. run_refresh. rewrite H, H0. cbn [negb]. rewrite Htext.
    reflexivity.
  - intros e Htext. run_refresh. rewrite H, H0. cbn [negb]. rewrite Htext. reflexivity.
  - intros response e Hreply Hok Hjson. run_refresh. rewrite Hreply, Hok. cbn [negb].
    rewrite Hjson. reflexivity.
  - intros e. run_refresh.
    destruct (network w _ _) as [response | e'].
    + destruct (Response.ok response); cbn [negb].
      * destruct (Response.json response); cbn [fst snd logged]; [discriminate |].
        intros _. eexists. reflexivity.
      * destruct (Response.text response); cbn [fst snd logged];
          intros _; eexists; reflexivity.
    + cbn [fst snd logged]. intros _. eexists. reflexivity.
Qed.

(** X4 at work: the token endpoint answers 401 with the body
    invalid_client. *)
Lemma refreshToken_failure_message_witness :
  fst (refreshToken world_unauthorized new_machine)
  = Err (new_Error
           "Falha ao autenticar: Erro ao obter token: 401 Unauthorized - invalid_client").
Proof.
  destruct (refreshToken_failure_message world_unauthorized new_machine)
    as (_ & Hstatus & _).
  exact (proj1 (Hstatus (reply 401 "Unauthorized" "invalid_client") eq_refl eq_refl)
           "invalid_client"%string eq_refl).
Defined.

(** ** The call to the token endpoint *)

Lemma urlencode_char_safe (c : ascii) :
  forallb form_safe (list_ascii_of_string (urlencode_char c)) = true.
Proof.
  destruct c as [[] [] [] [] [] [] [] []]; vm_compute; reflexivity.
Qed.

Lemma list_ascii_of_string_app (a b : string) :
  list_ascii_of_string (a ++ b) = list_ascii_of_string a ++ list_ascii_of_string b.
Proof.
  induction a as [| c a IH]; cbn; [reflexivity | now rewrite IH].
Qed.

Lemma urlencode_safe (s : string) :
  forallb form_safe (list_ascii_of_string (urlencode s)) = true.
Proof.
  induction s as [| c s IH]; [reflexivity |].
  cbn [urlencode]. rewrite list_ascii_of_string_app, forallb_app.
  now rewrite urlencode_char_safe, IH.
Qed.

(** X5. Every refresh issues exactly one call: a POST to
    [{baseURL}/{realm}/oidc/oauth/token] with the form content type, no
    timer, and a body of the three fields of the client-credentials grant,
    in which the identifier and the secret are form encoded, so that no
    character of them (an ampersand, an equals sign) can split a field. *)
Theorem refreshToken_issues_the_grant_request (w : World) (m : Machine) :
  exists c,
    calls (snd (refreshToken w m)) = calls m ++ [c] /\
    call_url c
    = (InternalConfig.baseURL (config (this m)) ++ "/"
       ++ InternalConfig.realm (config (this m)) ++ "/oidc/oauth/token")%string /\
    FetchRequestInit.method (call_init c) = "POST"%string /\
    get_own (FetchRequestInit.headers (call_init c)) "Content-Type"
    = Some "application/x-www-form-urlencoded"%string /\
    FetchRequestInit.signal (call_init c) = None /\
    FetchRequestInit.body (call_init c)
    = Some (BodyText ("grant_type=client_credentials&client_id="
                      ++ urlencode (InternalConfig.clientId (config (this m)))
                      ++ "&client_secret="
                      ++ urlencode (InternalConfig.clientSecret (config (this m))))%string) /\
    (forall s, forallb form_safe (list_ascii_of_string (urlencode s)) = true) /\
    form_safe "&" = false /\ form_safe "=" = false.
Proof.
  exists (token_call m). split.
  - destruct (granted_or_refused w m) as [(data & Hgrant) | Hrefused].
    + now rewrite (refreshToken_granted w m data Hgrant).
    + destruct (refreshToken_refused w m Hrefused) as (cause & m' & Hrun & _ & _ & Hcalls).
      now rewrite Hrun.
  - repeat split. apply urlencode_safe.
Qed.

(** ** Objects: writing and reading properties *)

Section PropsFacts.
Context {V : Type}.

Lemma get_own_replace_own (props : list (string * V)) (k k' : string) (v : V) :
  has_own props k = true ->
  get_own (replace_own props k v) k'
  = if (k =? k')%string then Some v else get_own props k'.
Proof.
  unfold has_own. induction props as [| [k0 v0] rest IH]; cbn [get_own replace_own].
  - discriminate.
  - destruct (String.eqb_spec k0 k) as [-> | Hne].
    + intros _. cbn [get_own]. destruct (k =? k')%string; reflexivity.
    + intros Hin. cbn [get_own]. rewrite (IH Hin).
      destruct (String.eqb_spec k0 k') as [-> | Hne'].
      * apply String.eqb_neq in Hne. rewrite String.eqb_sym in Hne. now rewrite Hne.
      * reflexivity.
Qed.

Lemma get_own_insert_index (props : list (string * V)) (i : Z) (k k' : string) (v : V) :
  has_own props k = false ->
  get_own (insert_index props i k v) k'
  = if (k =? k')%string then Some v else get_own props k'.
Proof.
  unfold has_own. induction props as [| [k0 v0] rest IH]; cbn [get_own insert_index].
  - reflexivity.
  - destruct (String.eqb_spec k0 k) as [-> | Hne]; [discriminate |].
    intros Hout.
    assert (Hskip : forall T (a b : T),
               (if (k =? k')%string then a
                else if (k0 =? k')%string then b else a)
               = if (k0 =? k')%string
                 then (if (k =? k')%string then a else b)
                 else a).
    { intros T a b. destruct (k =? k')%string, (k0 =? k')%string; reflexivity. }
    destruct (array_index k0) as [j |]; [destruct (j <? i) |]; cbn [get_own];
      try reflexivity.
    rewrite (IH Hout).
    destruct (String.eqb_spec k0 k') as [-> | Hne']; [| reflexivity].
    apply String.eqb_neq in Hne. rewrite String.eqb_sym in Hne. now rewrite Hne.
Qed.

Lemma get_own_app (a b : list (string * V)) (k : string) :
  get_own (a ++ b) k
  = match get_own a k with
    | Some v => Some v
    | None => get_own b k
    end.
Proof.
  induction a as [| [k0 v0] rest IH]; cbn [get_own app]; [reflexivity |].
  destruct (k0 =? k)%string; [reflexivity | exact IH].
Qed.

(** [obj[k] = v] then [obj[k']]: the value written, at [k], and what was
    there, anywhere else. *)
Lemma get_own_set_prop (props : list (string * V)) (k k' : string) (v : V) :
  get_own (set_prop props k v) k'
  = if (k =? k')%string then Some v else get_own props k'.
Proof.
  unfold set_prop. destruct (has_own props k) eqn:Hin.
  - now apply get_own_replace_own.
  - destruct (array_index k) as [i |].
    + now apply get_own_insert_index.
    + rewrite get_own_app. cbn [get_own].
      destruct (String.eqb_spec k k') as [<- | Hne].
      * unfold has_own in Hin. destruct (get_own props k); [discriminate | reflexivity].
      * destruct (get_own props k'); reflexivity.
Qed.

(** [{...a, ...b}[k]]: the last value [b] gives to [k], or else that of
    [a]. *)
Lemma get_own_spread (a b : list (string * V)) (k : string) :
  get_own (spread a b) k
  = match get_own (rev b) k with
    | Some v => Some v
    | None => get_own a k
    end.
Proof.
  unfold spread. revert a. induction b as [| [k0 v0] rest IH]; intros a.
  - reflexivity.
  - cbn [fold_left fst snd rev]. rewrite IH, get_own_app, get_own_set_prop.
    cbn [get_own].
    destruct (get_own (rev rest) k); [reflexivity |].
    destruct (k0 =? k)%string; reflexivity.
Qed.

End PropsFacts.

(** ** The request dispatcher around its call *)

(** What [getAccessToken] does to the machine: the configuration stays, and
    at most one call is issued, none when the cache is fresh. *)
Lemma getAccessToken_effects (w : World) (m : Machine) :
  config (this (snd (getAccessToken w m))) = config (this m) /\
  exists l,
    calls (snd (getAccessToken w m)) = calls m ++ l /\
    (length l <= 1)%nat /\
    (fresh w m -> l = []).
Proof.
  destruct (fresh_iff_check w m) as [Hdec Hdec'].
  destruct (truthy_opt_string (accessToken (this m))
            && (tokenExpiresAt (this m) >? clock w (ticks m) + 5 * 60 * 1000)) eqn:Hcheck.
  - rewrite (getAccessToken_fresh w m (Hdec eq_refl)). cbn [snd tick this calls].
    split; [reflexivity |]. exists []. rewrite app_nil_r. auto.
  - assert (Hstale : ~ fresh w m) by (intros H; apply Hdec' in H; discriminate).
    destruct (getAccessToken_stale_run w m Hstale) as (Hcalls & Hgranted & Hrefused).
    split.
    + destruct (granted_or_refused w m) as [(data & Hgrant) | Hbad].
      * now rewrite (proj2 (Hgranted data Hgrant)).
      * destruct (Hrefused Hbad) as (cause & _ & Hthis). now rewrite Hthis.
    + exists [token_call m]. split; [exact Hcalls |]. split; [cbn; lia | tauto].
Qed.

Section DispatcherFacts.
Context {rt : JsRuntime}.
Variables (w : World) (m : Machine) (method path : string).
Variable options : option RequestOptions.t.

(** What [request] does to the machine once it holds its token: the object
    and the clock are left alone, and the one call is issued unless the
    timer is refused. *)
Lemma request_after_token (token : option string) (m1 : Machine) :
  getAccessToken w m = (Ok token, m1) ->
  this (snd (request w method path options m)) = this m1 /\
  ticks (snd (request w method path options m)) = ticks m1 /\
  calls (snd (request w method path options m))
  = calls m1
    ++ match AbortSignal_timeout (InternalConfig.timeout (config (this m1))) with
       | Some _ => []
       | None => [api_call m1 token method path options]
       end.
Proof.
  intros Hget.
  unfold request, bind; rewrite Hget;
  cbv [get_this sdkLogger new_timeout_signal]; cbn [this ticks calls logged].
  destruct (AbortSignal_timeout _) as [e0 |].
  { cbv [throw]. cbn [snd this ticks calls]. rewrite app_nil_r. auto. }
  cbv [ret try_catch fetch bind]; cbn [this ticks calls logged].
  fold (api_call m1 token method path options).
  destruct (network w _ _) as [response | e].
  - destruct (negb (Response.ok response)).
    + unfold await. destruct (Response.text response) as [errorText | e].
      * cbn [this ticks calls logged].
        match goal with
        | |- context [new_Error_of ?v ?m0] =>
            destruct (new_Error_of_cases v m0) as [[Hnew _] | [Hnew _]]
        end; rewrite Hnew; unfold throw;
          destruct (name _ =? "AbortError")%string; auto.
      * unfold throw. destruct (name e =? "AbortError")%string; auto.
    + destruct (truthy_opt_bool _); [auto |].
      unfold await. destruct (Response.text response) as [responseText | e].
      * destruct (JSON_parse responseText); auto.
      * unfold throw. destruct (name e =? "AbortError")%string; auto.
  - unfold throw. destruct (name e =? "AbortError")%string; auto.
Qed.

(** X6. When the cache is stale and the refresh is refused, [request] fails
    with the authentication error of the refresh; the call to the token
    endpoint is the only call it has issued, none goes to the resource API,
    and the cache is as it was. *)
Theorem request_fails_when_authentication_fails :
  ~ fresh w m ->
  refused w m ->
  (exists cause,
      fst (request w method path options m)
      = Err (new_Error ("Falha ao autenticar: " ++ cause)%string)) /\
  calls (snd (request w method path options m)) = calls m ++ [token_call m] /\
  this (snd (request w method path options m)) = this m.
Proof.
  intros Hstale Hrefused.
  destruct (getAccessToken_stale_run w m Hstale) as (Hcalls & _ & Hfails).
  destruct (Hfails Hrefused) as (cause & Hfail & Hthis).
  destruct (getAccessToken w m) as [[token | e] m1] eqn:Hget; [discriminate |].
  cbn [fst snd] in *. inversion Hfail; subst e.
  rewrite (request_unauthenticated w m method path options _ m1 Hget). cbn [fst snd].
  split; [now exists cause | auto].
Qed.

(** X7. In streaming mode a success is returned as the live response: the
    body is left unread, so neither its text nor a failure to read it
    bears on what [request] returns, and nothing is logged after the line
    that announces the request. *)
Theorem streaming_request_returns_live_response (response : Response.t) :
  dispatched w m method path options (Ok response) ->
  Response.ok response = true ->
  truthy_opt_bool (RequestOptions.stream (options_of options)) = true ->
  fst (request w method path options m) = Ok (ReturnedResponse response) /\
  exists before,
    logged (snd (request w method path options m))
    = before ++ [(info, "Realizando requisição para API StackSpot"%string)].
Proof.
  intros Hdispatched Hok Hstream.
  split; [now apply request_stream |].
  destruct Hdispatched as (token & m1 & Hget & Hsignal & Hreply).
  run_request Hget Hsignal Hreply.
  rewrite Hok. cbn [negb]. rewrite Hstream. cbn [snd logged]. eexists. reflexivity.
Qed.


(** X9. [request] never retries: whatever the outcome it issues at most two
    calls, at most one of them after it holds its token, and at most one in
    all when the cache is fresh. *)
Theorem request_never_retries :
  exists l,
    calls (snd (request w method path options m)) = calls m ++ l /\
    (length l <= 2)%nat /\
    (fresh w m -> (length l <= 1)%nat).
Proof.
  destruct (getAccessToken_effects w m) as (_ & l1 & Hcalls1 & Hlen1 & Hfresh).
  assert (Hrequest : exists l2,
             calls (snd (request w method path options m))
             = calls (snd (getAccessToken w m)) ++ l2 /\ (length l2 <= 1)%nat).
  { destruct (getAccessToken w m) as [[token | e] m1] eqn:Hget.
    - destruct (request_after_token token m1 Hget) as (_ & _ & Hcalls).
      cbn [snd]. rewrite Hcalls.
      destruct (AbortSignal_timeout _); eexists; split; try reflexivity; cbn; lia.
    - rewrite (request_unauthenticated w m method path options e m1 Hget).
      exists []. cbn [snd]. rewrite app_nil_r. split; [reflexivity | cbn; lia]. }
  destruct Hrequest as (l2 & Hcalls2 & Hlen2).
  exists (l1 ++ l2). rewrite Hcalls2, Hcalls1, app_assoc, length_app.
  split; [reflexivity |]. split; [lia |].
  intros H. rewrite (Hfresh H). cbn. lia.
Qed.

(** X10. The call [request] issues goes to the base address of the options,
    or to the configured one when the options name none or an empty one,
    followed by the path; it carries the configured timeout as the delay of
    its timer; and each of its headers is the one the options give under
    that name (the last, if several), or else the default: the bearer token
    just obtained, the JSON content type and the user agent. *)
Theorem request_call_target (token : option string) (m1 : Machine) :
  getAccessToken w m = (Ok token, m1) ->
  AbortSignal_timeout (InternalConfig.timeout (config (this m1))) = None ->
  exists c,
    calls (snd (request w method path options m)) = calls m1 ++ [c] /\
    (RequestOptions.baseURL (options_of options) = None
     \/ RequestOptions.baseURL (options_of options) = Some ""%string ->
     call_url c = (InternalConfig.inferenceBaseURL (config (this m)) ++ path)%string) /\
    (forall base,
        RequestOptions.baseURL (options_of options) = Some base ->
        base <> ""%string -> call_url c = (base ++ path)%string) /\
    FetchRequestInit.signal (call_init c) = Some (InternalConfig.timeout (config (this m))) /\
    forall k,
      get_own (FetchRequestInit.headers (call_init c)) k
      = match get_own (rev match RequestOptions.headers (options_of options) with
                           | Some given => given
                           | None => []
                           end) k with
        | Some v => Some v
        | None =>
            get_own [("Authorization"%string, ("Bearer " ++ template_token token)%string);
                     ("Content-Type"%string, "application/json"%string);
                     ("User-Agent"%string, "StackSpot-SDK/1.0.0"%string)] k
        end.
Proof.
  intros Hget Hsignal.
  pose proof (proj1 (getAccessToken_effects w m)) as Hconfig.
  rewrite Hget in Hconfig. cbn [snd] in Hconfig.
  exists (api_call m1 token method path options).
  split; [now apply request_calls |].
  cbn [api_call call_url call_init fetchOptions_of FetchRequestInit.signal
       FetchRequestInit.headers].
  rewrite Hconfig. unfold url_of.
  split; [| split; [| split; [reflexivity |]]].
  - intros [-> | ->]; reflexivity.
  - intros base -> Hne. unfold or_string, truthy_string.
    apply String.eqb_neq in Hne. now rewrite Hne.
  - intros k. unfold headers_of. apply get_own_spread.
Qed.

(** X11. When the runtime refuses the configured timeout as the delay of a
    timer, [request] fails with the error of the runtime, after it has
    obtained its token and without a call to the resource API. *)
Theorem request_fails_when_timer_is_refused (e : JsError) :
  timer_refused w m e ->
  fst (request w method path options m) = Err e /\
  calls (snd (request w method path options m)) = calls (snd (getAccessToken w m)).
Proof.
  intros Hrefused. split; [now apply request_timer_refused |].
  destruct Hrefused as (token & m1 & Hget & Hsignal).
  destruct (request_after_token token m1 Hget) as (_ & _ & Hcalls).
  rewrite Hcalls, Hsignal, Hget. cbn [snd]. apply app_nil_r.
Qed.

End DispatcherFacts.

(** ** The further properties at work, on the reference runtime *)

(** X6 at work: the network is down. *)
Lemma request_fails_when_authentication_fails_witness :
  fst (request world_offline "GET" "/v1/agents" None new_machine)
  = Err (new_Error "Falha ao autenticar: getaddrinfo ENOTFOUND idm.stackspot.com") /\
  calls (snd (request world_offline "GET" "/v1/agents" None new_machine))
  = [token_call new_machine].
Proof.
  assert (Hrefused : refused world_offline new_machine).
  { left. eexists. reflexivity. }
  destruct (request_fails_when_authentication_fails world_offline new_machine
              "GET" "/v1/agents" None (new_machine_is_stale _) Hrefused)
    as (_ & Hcalls & _).
  split; [vm_compute; reflexivity | exact Hcalls].
Defined.

(** X7 at work: reading the body would be aborted, and the streaming
    request returns the response all the same. *)
Lemma streaming_request_returns_live_response_witness :
  Response.text unreadable = Err (mkError "AbortError" "The operation was aborted.") /\
  fst (request world_unreadable "POST" "/v1/chat" (Some options_stream) new_machine)
  = Ok (ReturnedResponse unreadable).
Proof.
  split; [reflexivity |].
  apply (streaming_request_returns_live_response world_unreadable new_machine
           "POST" "/v1/chat" (Some options_stream) unreadable); try reflexivity.
  eexists. eexists. split; [vm_compute; reflexivity |]. split; reflexivity.
Defined.

(** X10 at work: the options replace the content type, add a header and
    name another base address. *)
Lemma request_call_target_witness :
  exists c,
    calls (snd (request world_not_json "GET" "/v1/agents" (Some options_custom) new_machine))
    = [token_call new_machine; c] /\
    call_url c = "https://example.test/v1/agents"%string /\
    FetchRequestInit.signal (call_init c) = Some 30000 /\
    get_own (FetchRequestInit.headers (call_init c)) "Authorization"
    = Some "Bearer tok"%string /\
    get_own (FetchRequestInit.headers (call_init c)) "Content-Type"
    = Some "text/plain"%string /\
    get_own (FetchRequestInit.headers (call_init c)) "X-Trace" = Some "abc"%string.
Proof.
  assert (Hget : getAccessToken world_not_json new_machine
                 = (Ok (Some "tok"%string), snd (getAccessToken world_not_json new_machine)))
    by (vm_compute; reflexivity).
  assert (Hsignal : AbortSignal_timeout
                      (InternalConfig.timeout
                         (config (this (snd (getAccessToken world_not_json new_machine)))))
                    = None)
    by (vm_compute; reflexivity).
  destruct (request_call_target world_not_json new_machine "GET" "/v1/agents"
              (Some options_custom) (Some "tok"%string) _ Hget Hsignal)
    as (c & Hcalls & _ & Hurl & Htimer & Hheaders).
  exists c. split; [exact Hcalls |].
  split; [apply (Hurl "https://example.test"%string); [reflexivity | discriminate] |].
  split; [exact Htimer |].
  rewrite !Hheaders. repeat split.
Defined.

(** X11 at work: a configured timeout of -1 is refused with a RangeError,
    once the token has been fetched. *)
Lemma request_fails_when_timer_is_refused_witness :
  option_map name (AbortSignal_timeout (-1)) = Some "RangeError"%string /\
  (exists e, name e = "RangeError"%string /\
             fst (request world_two_hours "GET" "/v1/agents" None machine_negative_timeout)
             = Err e) /\
  calls (snd (request world_two_hours "GET" "/v1/agents" None machine_negative_timeout))
  = [token_call machine_negative_timeout].
Proof.
  split; [vm_compute; reflexivity |].
  assert (Hrefused : timer_refused world_two_hours machine_negative_timeout
                       match AbortSignal_timeout (-1) with
                       | Some e => e
                       | None => new_Error ""
                       end).
  { eexists. eexists. split; [vm_compute; reflexivity |]. vm_compute. reflexivity. }
  destruct (request_fails_when_timer_is_refused world_two_hours machine_negative_timeout
              "GET" "/v1/agents" None _ Hrefused) as [Hfail Hcalls].
  split; [eexists; split; [| exact Hfail]; vm_compute; reflexivity |].
  rewrite Hcalls. vm_compute. reflexivity.
Defined.

(** * Properties of the logger *)

Section LoggerFacts.
Context {rt : JsRuntime}.
Variable JSON_stringify_indent : JsValue -> string.

Lemma entries_of_app (a b : list Logger.Event) :
  Logger.entries_of (a ++ b) = Logger.entries_of a ++ Logger.entries_of b.
Proof. unfold Logger.entries_of. apply flat_map_app. Qed.

Lemma run_app (a b : list Logger.Event) (s : Logger.State) :
  Logger.run JSON_stringify_indent (a ++ b) s
  = Logger.run JSON_stringify_indent b (Logger.run JSON_stringify_indent a s).
Proof. unfold Logger.run. apply fold_left_app. Qed.

(** What a task leaves in memory: the module is initialized and the entry
    is at the end of the entries, whatever the file system did. *)
Lemma task_memory (entry : JsValue) (f : Logger.Faults) (s : Logger.State) :
  Logger.initialized (Logger.task JSON_stringify_indent entry f s) = true /\
  Logger.logQueue (Logger.task JSON_stringify_indent entry f s) = Logger.logQueue s /\
  Logger.logEntries (Logger.task JSON_stringify_indent entry f s)
  = Logger.logEntries (Logger.ensureInitialized f s) ++ [entry].
Proof.
  unfold Logger.task, Logger.ensureInitialized.
  destruct (Logger.initialized s) eqn:Hinit;
    destruct (Logger.mkdir_fails f); try destruct (Logger.writeFile_fails f);
    cbn; auto.
Qed.

(** What a task writes when the file system lets it: the entries in
    memory, the new one included. *)
Lemma task_written (entry : JsValue) (f : Logger.Faults) (s : Logger.State) :
  Logger.mkdir_fails f = false ->
  Logger.writeFile_fails f = None ->
  Logger.file (Logger.task JSON_stringify_indent entry f s)
  = Some (JSON_stringify_indent
            (JArray (Logger.logEntries (Logger.task JSON_stringify_indent entry f s)))).
Proof.
  intros Hmkdir Hwrite. unfold Logger.task. rewrite Hmkdir, Hwrite. reflexivity.
Qed.

Lemma run_invariant (file0 : option string)
  (events : list Logger.Event) :
  exists loaded ran,
    Logger.entries_of events
    = ran ++ Logger.logQueue (Logger.run JSON_stringify_indent events (Logger.initial file0)) /\
    (loaded = [] \/ loaded = Logger.items_of_file file0) /\
    Logger.logEntries (Logger.run JSON_stringify_indent events (Logger.initial file0))
    = (if Logger.initialized (Logger.run JSON_stringify_indent events (Logger.initial file0))
       then loaded ++ ran else []) /\
    (Logger.initialized (Logger.run JSON_stringify_indent events (Logger.initial file0)) = false ->
     ran = [] /\
     Logger.file (Logger.run JSON_stringify_indent events (Logger.initial file0)) = file0).
Proof.
  induction events as [| e events IH] using rev_ind.
  - exists [], []. cbn. auto.
  - destruct IH as (loaded & ran & Hall & Hloaded & Hmem & Hfresh).
    rewrite run_app, entries_of_app.
    set (s := Logger.run JSON_stringify_indent events (Logger.initial file0)) in *.
    destruct e as [level message meta timestamp | f]; cbn [Logger.run fold_left Logger.step].
    + exists loaded, ran. cbn [Logger.entries_of flat_map Logger.enqueue
                               Logger.logQueue Logger.logEntries Logger.initialized
                               Logger.file].
      rewrite app_nil_r, Hall, app_assoc. auto.
    + cbn [Logger.entries_of flat_map]. rewrite app_nil_r.
      destruct (Logger.logQueue s) as [| entry rest] eqn:Hqueue.
      { exists loaded, ran. rewrite Hqueue. auto. }
      destruct (task_memory entry f
                  (Logger.mkState (Logger.logEntries s) (Logger.initialized s) rest
                                  (Logger.file s)))
        as (Hinit & Hrest & Hpushed).
      rewrite Hinit, Hrest, Hpushed. cbn [Logger.logQueue].
      unfold Logger.ensureInitialized.
      cbn [Logger.initialized Logger.logEntries Logger.logQueue Logger.file].
      destruct (Logger.initialized s) eqn:Hready;
        cbn [Logger.initialized Logger.logEntries Logger.logQueue Logger.file].
      * exists loaded, (ran ++ [entry]). rewrite Hall, Hmem, <- !app_assoc.
        repeat split; auto; congruence.
      * destruct (Hfresh eq_refl) as [-> Hfile].
        unfold Logger.readFile. cbn [Logger.file]. rewrite Hfile.
        destruct (Logger.readFile_fails f);
          cbn [Logger.initialized Logger.logEntries Logger.logQueue Logger.file].
        -- exists [], [entry]. rewrite Hall. repeat split; auto; congruence.
        -- exists (Logger.items_of_file file0), [entry]. rewrite Hall.
           split; [reflexivity |]. split; [auto |]. split; [| congruence].
           unfold Logger.items_of_file. destruct file0 as [text |]; [| reflexivity].
           destruct (JSON_parse text) as [[] |]; reflexivity.
Qed.

(** How two initialized states that hold the same entries and the same
    pending tasks stay so, whatever their files hold. *)
Lemma step_agree (s t : Logger.State) (e : Logger.Event) :
  Logger.logEntries s = Logger.logEntries t /\ Logger.logQueue s = Logger.logQueue t /\
  Logger.initialized s = true /\ Logger.initialized t = true ->
  Logger.logEntries (Logger.step JSON_stringify_indent s e)
  = Logger.logEntries (Logger.step JSON_stringify_indent t e) /\
  Logger.logQueue (Logger.step JSON_stringify_indent s e)
  = Logger.logQueue (Logger.step JSON_stringify_indent t e) /\
  Logger.initialized (Logger.step JSON_stringify_indent s e) = true /\
  Logger.initialized (Logger.step JSON_stringify_indent t e) = true.
Proof.
  intros (Hentries & Hqueue & Hs & Ht).
  destruct e as [level message meta timestamp | f]; cbn [Logger.step].
  - cbn. rewrite Hqueue. auto.
  - destruct (Logger.logQueue s) as [| entry rest] eqn:Hpending; rewrite <- Hqueue;
      cbv iota; [repeat split; congruence |].
    rewrite !(proj1 (task_memory _ _ _)).
    rewrite !(proj1 (proj2 (task_memory _ _ _))).
    rewrite !(proj2 (proj2 (task_memory _ _ _))).
    unfold Logger.ensureInitialized. cbn [Logger.initialized Logger.logEntries Logger.logQueue].
    rewrite Hs, Ht, Hentries. auto.
Qed.

Lemma run_agree (events : list Logger.Event) (s t : Logger.State) :
  Logger.logEntries s = Logger.logEntries t /\ Logger.logQueue s = Logger.logQueue t /\
  Logger.initialized s = true /\ Logger.initialized t = true ->
  Logger.logEntries (Logger.run JSON_stringify_indent events s)
  = Logger.logEntries (Logger.run JSON_stringify_indent events t) /\
  Logger.logQueue (Logger.run JSON_stringify_indent events s)
  = Logger.logQueue (Logger.run JSON_stringify_indent events t) /\
  Logger.initialized (Logger.run JSON_stringify_indent events s) = true /\
  Logger.initialized (Logger.run JSON_stringify_indent events t) = true.
Proof.
  revert s t. induction events as [| e events IH]; intros s t Hagree.
  - exact Hagree.
  - cbn [Logger.run fold_left]. apply IH. now apply step_agree.
Qed.

(** X12. However calls of the logger and runs of its tasks interleave, and
    whatever the file system does, the entries in memory are those read from
    the log file at the first task (none, if it could not be read) followed
    by the entries of the tasks that have run, and the pending tasks hold
    the rest, all in the order of the calls: no entry is lost, repeated or
    reordered, and none is in memory before the file has been read. *)
Theorem logger_keeps_every_entry_in_order (file0 : option string)
  (events : list Logger.Event) :
  exists loaded ran,
    Logger.entries_of events
    = ran ++ Logger.logQueue (Logger.run JSON_stringify_indent events (Logger.initial file0)) /\
    (loaded = [] \/ loaded = Logger.items_of_file file0) /\
    Logger.logEntries (Logger.run JSON_stringify_indent events (Logger.initial file0))
    = (if Logger.initialized (Logger.run JSON_stringify_indent events (Logger.initial file0))
       then loaded ++ ran else []) /\
    (Logger.initialized (Logger.run JSON_stringify_indent events (Logger.initial file0)) = false ->
     ran = [] /\
     Logger.file (Logger.run JSON_stringify_indent events (Logger.initial file0)) = file0).
Proof.
  destruct (run_invariant file0 events) as (loaded & ran & H).
  exists loaded, ran. exact H.
Qed.

(** X13. When a task runs and the file system lets it write, the log file
    holds, as one JSON array, the entries read from the file at the first
    task followed by every entry whose task has run, in the order of the
    calls, those whose own write was rejected included. So when the file
    held no entries at first and no task is left pending, the file holds
    exactly the entries logged, one for each call. *)
Theorem successful_write_persists_every_entry (file0 : option string)
  (events : list Logger.Event) (f : Logger.Faults) :
  Logger.mkdir_fails f = false ->
  Logger.writeFile_fails f = None ->
  Logger.logQueue (Logger.run JSON_stringify_indent events (Logger.initial file0)) <> [] ->
  (exists loaded ran,
      (loaded = [] \/ loaded = Logger.items_of_file file0) /\
      Logger.entries_of events
      = ran ++ Logger.logQueue (Logger.run JSON_stringify_indent
                                            (events ++ [Logger.Settled f])
                                            (Logger.initial file0)) /\
      Logger.file (Logger.run JSON_stringify_indent (events ++ [Logger.Settled f])
                              (Logger.initial file0))
      = Some (JSON_stringify_indent (JArray (loaded ++ ran)))) /\
  (Logger.items_of_file file0 = [] ->
   Logger.logQueue (Logger.run JSON_stringify_indent (events ++ [Logger.Settled f])
                               (Logger.initial file0)) = [] ->
   Logger.file (Logger.run JSON_stringify_indent (events ++ [Logger.Settled f])
                           (Logger.initial file0))
   = Some (JSON_stringify_indent (JArray (Logger.entries_of events)))).
Proof.
  intros Hmkdir Hwrite Hpending.
  assert (Hgeneral :
            exists loaded ran,
              (loaded = [] \/ loaded = Logger.items_of_file file0) /\
              Logger.entries_of events
              = ran ++ Logger.logQueue (Logger.run JSON_stringify_indent
                                                    (events ++ [Logger.Settled f])
                                                    (Logger.initial file0)) /\
              Logger.file (Logger.run JSON_stringify_indent (events ++ [Logger.Settled f])
                                      (Logger.initial file0))
              = Some (JSON_stringify_indent (JArray (loaded ++ ran)))).
  { destruct (run_invariant file0 (events ++ [Logger.Settled f]))
      as (loaded & ran & Hall & Hloaded & Hmem & _).
    rewrite entries_of_app in Hall. cbn [Logger.entries_of flat_map] in Hall.
    rewrite app_nil_r in Hall.
    exists loaded, ran. split; [exact Hloaded |]. split; [exact Hall |].
    revert Hmem. rewrite run_app. cbn [Logger.run fold_left Logger.step].
    destruct (Logger.logQueue (Logger.run JSON_stringify_indent events (Logger.initial file0)))
      as [| entry rest]; [congruence |].
    rewrite (task_written _ _ _ Hmkdir Hwrite).
    rewrite (proj1 (task_memory _ _ _)). now intros ->. }
  split; [exact Hgeneral |].
  intros Hempty Hdrained.
  destruct Hgeneral as (loaded & ran & Hloaded & Hall & Hfile).
  rewrite Hfile, Hall, Hdrained, app_nil_r.
  destruct Hloaded as [-> | ->]; [reflexivity | now rewrite Hempty].
Qed.

(** X14. The first task reads the log file once: when the file holds a JSON
    array its items are kept and the new entry is added after them; when
    the file cannot be read, is not there, is not JSON or is not an array,
    what it held is dropped and the file is written anew with the new entry
    alone. *)
Theorem first_task_keeps_an_array_and_replaces_the_rest
  (s : Logger.State) (entry : JsValue) (f : Logger.Faults) :
  Logger.initialized s = false ->
  Logger.mkdir_fails f = false ->
  Logger.writeFile_fails f = None ->
  (forall text items,
      Logger.readFile_fails f = false ->
      Logger.file s = Some text ->
      JSON_parse text = Some (JArray items) ->
      Logger.file (Logger.task JSON_stringify_indent entry f s)
      = Some (JSON_stringify_indent (JArray (items ++ [entry])))) /\
  (Logger.readFile_fails f = true \/ Logger.file s = None \/
   (exists text,
       Logger.file s = Some text /\
       (JSON_parse text = None \/
        exists v, JSON_parse text = Some v /\ forall items, v <> JArray items)) ->
   Logger.file (Logger.task JSON_stringify_indent entry f s)
   = Some (JSON_stringify_indent (JArray [entry]))).
Proof.
  intros Hinit Hmkdir Hwrite.
  rewrite (task_written _ _ _ Hmkdir Hwrite).
  rewrite (proj2 (proj2 (task_memory _ _ _))).
  unfold Logger.ensureInitialized, Logger.readFile. rewrite Hinit.
  split.
  - intros text items Hread Hfile Hparse. rewrite Hread, Hfile. cbv beta iota.
    rewrite Hparse. reflexivity.
  - intros [Hread | [Hfile | (text & Hfile & Hparse)]].
    + rewrite Hread. reflexivity.
    + rewrite Hfile. destruct (Logger.readFile_fails f); reflexivity.
    + rewrite Hfile. destruct (Logger.readFile_fails f); [reflexivity |].
      cbv beta iota. destruct Hparse as [-> | (v & -> & Hother)]; [reflexivity |].
      destruct v; try reflexivity. now contradiction (Hother items).
Qed.

(** X15. Once the module is initialized the log file is never read again:
    the entries in memory and the pending tasks after any events are the
    same whatever the file holds, and so is what the next task writes; a
    change made to the file from outside is overwritten. *)
Theorem log_file_is_read_once
  (s : Logger.State) (other : option string) (events : list Logger.Event) :
  Logger.initialized s = true ->
  Logger.logEntries (Logger.run JSON_stringify_indent events s)
  = Logger.logEntries
      (Logger.run JSON_stringify_indent events
                  (Logger.mkState (Logger.logEntries s) true (Logger.logQueue s) other)) /\
  Logger.logQueue (Logger.run JSON_stringify_indent events s)
  = Logger.logQueue
      (Logger.run JSON_stringify_indent events
                  (Logger.mkState (Logger.logEntries s) true (Logger.logQueue s) other)) /\
  forall f,
    Logger.mkdir_fails f = false ->
    Logger.writeFile_fails f = None ->
    Logger.logQueue (Logger.run JSON_stringify_indent events s) <> [] ->
    Logger.file (Logger.run JSON_stringify_indent (events ++ [Logger.Settled f]) s)
    = Logger.file
        (Logger.run JSON_stringify_indent (events ++ [Logger.Settled f])
                    (Logger.mkState (Logger.logEntries s) true (Logger.logQueue s) other)).
Proof.
  intros Hinit.
  assert (Hstart : Logger.logEntries s
                   = Logger.logEntries
                       (Logger.mkState (Logger.logEntries s) true (Logger.logQueue s) other) /\
                   Logger.logQueue s
                   = Logger.logQueue
                       (Logger.mkState (Logger.logEntries s) true (Logger.logQueue s) other) /\
                   Logger.initialized s = true /\
                   Logger.initialized
                     (Logger.mkState (Logger.logEntries s) true (Logger.logQueue s) other)
                   = true) by (cbn; auto).
  destruct (run_agree events _ _ Hstart) as (Hentries & Hqueue & _).
  split; [exact Hentries |]. split; [exact Hqueue |].
  intros f Hmkdir Hwrite Hpending.
  destruct (run_agree (events ++ [Logger.Settled f]) _ _ Hstart) as (Hentries' & _).
  revert Hentries'. rewrite !run_app. cbn [Logger.run fold_left Logger.step].
  rewrite <- Hqueue.
  destruct (Logger.logQueue (Logger.run JSON_stringify_indent events s))
    as [| entry rest]; [congruence |].
  rewrite !(task_written _ _ _ Hmkdir Hwrite). now intros ->.
Qed.

End LoggerFacts.

(** ** The logger at work, on the reference runtime *)

(** X13 at work: two entries are logged, the write of the first is
    rejected, that of the second is not, and the file holds both. *)
Lemma successful_write_persists_every_entry_witness :
  Logger.file (Logger.run pretty (two_entries ++ [Logger.Settled Logger.no_fault])
                          (Logger.initial None))
  = Some (pretty (JArray (Logger.entries_of two_entries))) /\
  length (Logger.entries_of two_entries) = 2%nat.
Proof.
  split; [| reflexivity].
  apply (successful_write_persists_every_entry pretty None two_entries Logger.no_fault);
    try reflexivity.
  vm_compute. discriminate.
Defined.

(** X14 at work: a log file that holds the JSON object {} is written anew
    with the one entry. *)
Lemma first_task_keeps_an_array_and_replaces_the_rest_witness :
  Logger.file (Logger.task pretty (JString "entry") Logger.no_fault
                           (Logger.initial (Some "{}"%string)))
  = Some (pretty (JArray [JString "entry"])).
Proof.
  apply (first_task_keeps_an_array_and_replaces_the_rest pretty
           (Logger.initial (Some "{}"%string)) (JString "entry") Logger.no_fault);
    try reflexivity.
  right. right. exists "{}"%string. split; [reflexivity |]. right.
  exists (JObject []). split; [vm_compute; reflexivity | discriminate].
Defined.

(** X15 at work: after a first entry has been written, the file is replaced
    from outside by another text; the next write does not depend on it. *)
Lemma log_file_is_read_once_witness :
  Logger.file
    (Logger.run pretty
       [Logger.Logged warn "again" JUndefined "2024-01-01T00:00:02.000Z";
        Logger.Settled Logger.no_fault]
       (Logger.run pretty (two_entries ++ [Logger.Settled Logger.no_fault])
                   (Logger.initial None)))
  = Logger.file
      (Logger.run pretty
         [Logger.Logged warn "again" JUndefined "2024-01-01T00:00:02.000Z";
          Logger.Settled Logger.no_fault]
         (Logger.mkState
            (Logger.logEntries
               (Logger.run pretty (two_entries ++ [Logger.Settled Logger.no_fault])
                           (Logger.initial None)))
            true
            (Logger.logQueue
               (Logger.run pretty (two_entries ++ [Logger.Settled Logger.no_fault])
                           (Logger.initial None)))
            (Some "edited by hand"%string))).
Proof.
  refine (proj2 (proj2 (log_file_is_read_once pretty
                          (Logger.run pretty (two_entries ++ [Logger.Settled Logger.no_fault])
                                      (Logger.initial None))
                          (Some "edited by hand"%string)
                          [Logger.Logged warn "again" JUndefined "2024-01-01T00:00:02.000Z"]
                          _))
                Logger.no_fault _ _ _).
  - vm_compute. reflexivity.
  - reflexivity.
  - reflexivity.
  - vm_compute. discriminate.
Defined.

(** ** Errors of the transport *)

(** X16. A failure of the transport that is not the timer's is passed on
    as it is: when the call, or the reading of a body that [request]
    reads, is rejected with an error whose name is not AbortError,
    [request] fails with that very error, name and message unchanged. *)
Theorem transport_error_is_rethrown_unchanged
  {rt : JsRuntime} (w : World) (m : Machine) (method path : string)
  (options : option RequestOptions.t) (e : JsError) :
  transport_failure w m method path options e ->
  name e <> "AbortError"%string ->
  fst (request w method path options m) = Err e.
Proof.
  intros Hfailure Hname.
  assert (Hsame : rethrown e = e).
  { unfold rethrown. apply String.eqb_neq in Hname. now rewrite Hname. }
  destruct Hfailure as [Hrejected | (response & Hdispatched & Htext & Hread)].
  - rewrite (request_rejected w m method path options e Hrejected). now rewrite Hsame.
  - destruct (Response.ok response) eqn:Hok.
    + destruct Hread as [Hread | Hread]; [discriminate |].
      rewrite (request_ok_unread w m method path options response e) by assumption.
      now rewrite Hsame.
    + rewrite (request_not_ok_unread w m method path options response e) by assumption.
      now rewrite Hsame.
Qed.

(** X16 at work: the resource API cannot be reached. *)
Lemma transport_error_is_rethrown_unchanged_witness :
  fst (request (world_of (Ok (grant "tok" (Some 3600)))
                         (Err (mkError "FetchError" "socket hang up")))
               "GET" "/v1/agents" None new_machine)
  = Err (mkError "FetchError" "socket hang up").
Proof.
  apply transport_error_is_rethrown_unchanged; [| discriminate].
  left. apply dispatched_after_grant.
Defined.
